(** * Sliding-window nucleotide statistics: [analyze_sequence.py]

    A shallow embedding of [calculate_stats], [read_sequence_file] and the
    control flow of [main], together with the Python built-ins they rely on
    ([range], slicing, [str.count], [str.strip], [str.startswith], true and
    floor division), followed by the properties stated for them.

    Modelling conventions.
    - A Python [int] is a [Z].
    - A Python [str] holding sequence data is a [list ascii] ([str] below);
      an [ascii] stands for a code point below 256.  Paths, file names and
      messages are Rocq [string]s.
    - True division [a / b] of two ints is kept as the exact quotient in
      [Q]; Python rounds that quotient to the nearest double.  The integer
      [0] of the zero-denominator branch is the rational [0].
    - An exception is a value of [exn]; code that may raise returns a
      [result].
    - What [main] does to the outside world is the list of [event]s it
      emits, in order, and the [outcome] with which the process ends. *)

From Stdlib Require Import ZArith QArith List Ascii String DecimalString.
From Stdlib Require Import Bool Lia Lqa.
Import ListNotations.
Open Scope Z_scope.

Set Implicit Arguments.

(** ** Python built-ins *)

Module Py.

Inductive exn : Type :=
| ValueError
| ZeroDivisionError
| FileNotFoundError.

(** [inl e]: the exception [e] was raised; [inr v]: the value [v]. *)
Definition result (A : Type) : Type := (exn + A)%type.

Definition ret {A} (v : A) : result A := inr v.
Definition raise {A} (e : exn) : result A := inl e.
Definition bind {A B} (c : result A) (k : A -> result B) : result B :=
  match c with
  | inl e => inl e
  | inr v => k v
  end.

Definition str : Type := list ascii.

Definition len {A} (s : list A) : Z := Z.of_nat (List.length s).

(** Number of items of a range with a positive step (CPython's
    [compute_range_length] after it has ordered the bounds). *)
Definition range_length (lo hi step : Z) : Z :=
  if lo <? hi then (hi - lo - 1) / step + 1 else 0.

(** [range(start, stop, step)], as the list of the items it yields. *)
Definition range (start stop step : Z) : result (list Z) :=
  if step =? 0 then raise ValueError
  else
    let n := if 0 <? step then range_length start stop step
             else range_length stop start (- step) in
    ret (map (fun k => start + Z.of_nat k * step) (seq 0 (Z.to_nat n))).

(** One bound of a slice, clamped as [PySlice_AdjustIndices] does for a
    step of 1. *)
Definition adjust_index (length i : Z) : Z :=
  if i <? 0 then Z.max (i + length) 0 else Z.min i length.

(** [s[lo:hi]]. *)
Definition slice {A} (s : list A) (lo hi : Z) : list A :=
  let lo' := adjust_index (len s) lo in
  let hi' := adjust_index (len s) hi in
  firstn (Z.to_nat (hi' - lo')) (skipn (Z.to_nat lo') s).

(** [s.count(c)] for a one-character [c]. *)
Fixpoint count (s : str) (c : ascii) : Z :=
  match s with
  | [] => 0
  | x :: rest => (if Ascii.eqb x c then 1 else 0) + count rest c
  end.

(** [a / b] on ints. *)
Definition truediv (a b : Z) : result Q :=
  if b =? 0 then raise ZeroDivisionError
  else ret (inject_Z a / inject_Z b)%Q.

(** [a // b] on ints, for the non-zero literal divisors used here. *)
Definition floordiv (a b : Z) : Z := a / b.

(** [s.startswith(c)] for a one-character [c]. *)
Definition startswith (s : str) (c : ascii) : bool :=
  match s with
  | [] => false
  | x :: _ => Ascii.eqb x c
  end.

(** [str.isspace] on one code point below 256. *)
Definition isspace (c : ascii) : bool :=
  let n := Z.of_nat (nat_of_ascii c) in
  ((9 <=? n) && (n <=? 13)) || ((28 <=? n) && (n <=? 32))
  || (n =? 133) || (n =? 160).

Fixpoint lstrip (s : str) : str :=
  match s with
  | [] => []
  | x :: rest => if isspace x then lstrip rest else s
  end.

Definition rstrip (s : str) : str := rev (lstrip (rev s)).

(** [s.strip()]. *)
Definition strip (s : str) : str := rstrip (lstrip s).

(** [str(n)] for an int, as an f-string renders it. *)
Definition str_of_int (n : Z) : string :=
  NilZero.string_of_int (Z.to_int n).

(** An f-string field holding an optional int: [None] prints as [None]. *)
Definition str_of_optional (n : option Z) : string :=
  match n with
  | Some v => str_of_int v
  | None => "None"%string
  end.

End Py.

Import Py.

Declare Scope py_scope.
Delimit Scope py_scope with py.
Notation "x <- c ;; k" := (bind c (fun x => k))
  (at level 61, c at next level, right associativity) : py_scope.
Open Scope py_scope.

(** ** The windowed statistics engine *)

(** The three accumulators of [calculate_stats]. *)
Record stats : Type := mkStats {
  positions : list Z;
  gt_totals : list Q;
  g_t_ratios : list Q
}.

Definition no_stats : stats := mkStats [] [] [].

(** Body of the [for] loop of [calculate_stats], for the start index [i]. *)
Definition window_stats (sequence : str) (window_size : Z)
    (acc : stats) (i : Z) : result stats :=
  let window := slice sequence i (i + window_size) in
  let g_count := count window "G" in
  let t_count := count window "T" in
  gt_total <- truediv (g_count + t_count) window_size ;;
  g_t_ratio <- (if 0 <? t_count then truediv g_count t_count else ret 0%Q) ;;
  ret (mkStats (positions acc ++ [i + floordiv window_size 2])
               (gt_totals acc ++ [gt_total])
               (g_t_ratios acc ++ [g_t_ratio])).

(** A [for] loop over the items [items], threading the accumulator and
    stopping at the first exception. *)
Fixpoint for_each {S} (body : S -> Z -> result S) (items : list Z) (acc : S)
    : result S :=
  match items with
  | [] => ret acc
  | i :: rest => acc' <- body acc i ;; for_each body rest acc'
  end.

Definition calculate_stats (sequence : str) (window_size step_size : Z)
    : result (list Z * list Q * list Q) :=
  let seq_length := len sequence in
  starts <- range 0 (seq_length - window_size + 1) step_size ;;
  st <- for_each (window_stats sequence window_size) starts no_stats ;;
  ret (positions st, gt_totals st, g_t_ratios st).

(** ** The sequence loader *)

Definition filesystem : Type := string -> option (list str).

Definition is_sequence_line (line : str) : bool :=
  negb (startswith line ">") && negb (startswith line "@")
  && negb (startswith line "+").

(** [read_sequence_file]: [fs path] is the list of lines of the text file
    at [path], when there is one. *)
Definition read_sequence_file (fs : filesystem) (file_path : string)
    : result str :=
  match fs file_path with
  | None => raise FileNotFoundError
  | Some lines => ret (List.concat (map strip (filter is_sequence_line lines)))
  end.

(** ** The command line, the validation and the reporter *)

(** The namespace returned by [parse_args]; [file] is the input path,
    [start] and [end_] are [None] when the option is absent. *)
Record args : Type := mkArgs {
  file : string;
  window : Z;
  step : Z;
  start : option Z;
  end_ : option Z
}.

(** What the process does that can be observed from outside, and the call
    of the engine. *)
Inductive event : Type :=
| PrintErr (line : string)
| Print (line : string)
| CallStats (sequence : str) (window_size step_size : Z)
| ToCsv (name : string) (table : list Z * list Q * list Q)
| Savefig (name : string) (table : list Z * list Q * list Q).

(** How the process ends: [sys.exit(status)], an exception nobody catches
    (the interpreter prints a traceback on standard error and the exit
    status is 1), or the end of [main] (exit status 0). *)
Inductive outcome : Type :=
| SysExit (status : Z)
| Uncaught (e : exn)
| Completed.

Definition exit_status (o : outcome) : Z :=
  match o with
  | SysExit status => status
  | Uncaught _ => 1
  | Completed => 0
  end.

(** [Path.exists]. *)
Definition path_exists (fs : filesystem) (p : string) : bool :=
  match fs p with
  | Some _ => true
  | None => false
  end.

(** The stem shared by the two output file names. *)
Definition output_stem (a : args) (start_pos end_pos : Z) : string :=
  ("window" ++ str_of_int (window a) ++ "-step" ++ str_of_int (step a)
   ++ "-pos" ++ str_of_int (start_pos + 1) ++ "-" ++ str_of_int end_pos)%string.

(** [start_pos] and [end_pos] as [main] sets them: the 1-based [--start]
    becomes a 0-based index, an absent [--end] is the sequence length. *)
Definition start_pos (a : args) : Z :=
  match start a with
  | Some s => s - 1
  | None => 0
  end.

Definition end_pos (a : args) (sequence : str) : Z :=
  match end_ a with
  | Some e => e
  | None => len sequence
  end.

Definition main (fs : filesystem) (a : args) : list event * outcome :=
  let input_file := file a in
  if negb (path_exists fs input_file) then
    ([PrintErr ("Error: File " ++ input_file ++ " does not exist")%string],
     SysExit 1)
  else if step a >? window a then
    ([PrintErr ("Error: Step size (" ++ str_of_int (step a)
                ++ ") cannot exceed window size ("
                ++ str_of_int (window a) ++ ")")%string],
     SysExit 1)
  else
    match read_sequence_file fs input_file with
    | inl e => ([], Uncaught e)
    | inr sequence =>
      let start_pos := start_pos a in
      let end_pos := end_pos a sequence in
      if start_pos <? 0 then
        ([PrintErr ("Error: Start position (" ++ str_of_optional (start a)
                    ++ ") must be positive")%string],
         SysExit 1)
      else if end_pos >? len sequence then
        ([PrintErr ("Error: End position (" ++ str_of_optional (end_ a)
                    ++ ") exceeds sequence length ("
                    ++ str_of_int (len sequence) ++ ")")%string],
         SysExit 1)
      else if start_pos >=? end_pos then
        ([PrintErr ("Error: Start position (" ++ str_of_optional (start a)
                    ++ ") must be less than end position ("
                    ++ str_of_optional (end_ a) ++ ")")%string],
         SysExit 1)
      else
        let sequence := slice sequence start_pos end_pos in
        let call := CallStats sequence (window a) (step a) in
        match calculate_stats sequence (window a) (step a) with
        | inl e => ([call], Uncaught e)
        | inr (positions, gt_totals, g_t_ratios) =>
          let positions := map (fun p => p + start_pos) positions in
          let table := (positions, gt_totals, g_t_ratios) in
          let csv_output := (output_stem a start_pos end_pos ++ ".csv")%string in
          let plt_output := (output_stem a start_pos end_pos ++ ".png")%string in
          ([call;
            ToCsv csv_output table;
            Savefig plt_output table;
            Print "Analysis complete. Results saved to:";
            Print ("  CSV: " ++ csv_output)%string;
            Print ("  Plot: " ++ plt_output)%string],
           Completed)
        end
    end.

(** ** Vocabulary of the statements *)

(** The first [n] multiples of [S]: [0, S, 2S, ...]. *)
Definition multiples (S : Z) (n : nat) : list Z :=
  map (fun k => Z.of_nat k * S) (seq 0 n).

(** The window that starts at index [i]. *)
Definition window_at (sequence : str) (W i : Z) : str :=
  slice sequence i (i + W).

(** What one pass of the loop body appends for the start index [i]. *)
Definition position_at (W i : Z) : Z := i + W / 2.

Definition gt_total_at (sequence : str) (W i : Z) : Q :=
  let window := window_at sequence W i in
  (inject_Z (count window "G" + count window "T") / inject_Z W)%Q.

Definition g_t_ratio_at (sequence : str) (W i : Z) : Q :=
  let window := window_at sequence W i in
  if 0 <? count window "T"
  then (inject_Z (count window "G") / inject_Z (count window "T"))%Q
  else 0%Q.

(** Number of windows of a sequence of length [N] for a positive step. *)
Definition rows (N W S : Z) : nat :=
  Z.to_nat (range_length 0 (N - W + 1) S).

(** Consecutive items of [l] differ by exactly [d]. *)
Definition stepped (d : Z) (l : list Z) : Prop :=
  forall k p q, nth_error l k = Some p -> nth_error l (S k) = Some q ->
                q - p = d.

(** The engine is called somewhere in the run. *)
Definition runs_engine (r : list event * outcome) : Prop :=
  exists sequence W S, In (CallStats sequence W S) (fst r).

(** A file is written somewhere in the run. *)
Definition writes_output (r : list event * outcome) : Prop :=
  exists name table, In (ToCsv name table) (fst r) \/ In (Savefig name table) (fst r).

(** The mean of the first and the last index of the window [i, i + W). *)
Definition index_center (i W : Z) : Q :=
  ((inject_Z i + inject_Z (i + W - 1)) / 2)%Q.

(** The mean of the two bounds of the window [i, i + W). *)
Definition interval_center (i W : Z) : Q :=
  ((inject_Z i + inject_Z (i + W)) / 2)%Q.

(** The position as the wording of the midpoint rule has it for an even
    [W]: one place to the left of the centre [center i W] of the window
    that starts at [i]. *)
Definition midpoint_one_left_of (center : Z -> Z -> Q) : Prop :=
  forall (sequence : str) (W S : Z) (k : nat) ps gts rs p,
    1 <= W -> 1 <= S <= W -> Z.even W = true ->
    calculate_stats sequence W S = inr (ps, gts, rs) ->
    nth_error ps k = Some p ->
    (inject_Z p == center (Z.of_nat k * S)%Z W - 1)%Q.

(** The claim that every window size and step outside [W >= 1],
    [1 <= S <= W] is turned away before the engine is called. *)
Definition rejects_invalid_window_step : Prop :=
  forall (fs : filesystem) (a : args),
    ~ (1 <= window a /\ 1 <= step a <= window a) ->
    ~ runs_engine (main fs a).

(** A file system with one FASTA file holding a sequence of length 10 and
    one holding a header line only. *)
Definition example_fs : filesystem :=
  fun p =>
    if String.eqb p "chrIX.fa"
    then Some [list_ascii_of_string ">chrIX";
               list_ascii_of_string "GGTTAAGGTT"]
    else if String.eqb p "empty.fa"
    then Some [list_ascii_of_string ">nothing"]
    else None.

(** The five input errors that [main] reports. *)
Inductive validation_failure (fs : filesystem) (a : args) : Prop :=
| missing_file :
    fs (file a) = None -> validation_failure fs a
| step_exceeds_window :
    step a > window a -> validation_failure fs a
| negative_start :
    start_pos a < 0 -> validation_failure fs a
| end_beyond_sequence : forall sequence,
    read_sequence_file fs (file a) = inr sequence ->
    end_pos a sequence > len sequence -> validation_failure fs a
| start_not_before_end : forall sequence,
    read_sequence_file fs (file a) = inr sequence ->
    start_pos a >= end_pos a sequence -> validation_failure fs a.

(** [s] neither starts nor ends with white space. *)
Definition trimmed (s : str) : Prop :=
  lstrip s = s /\ lstrip (rev s) = rev s.

(** The line feed that ends a line of a text file. *)
Definition newline : ascii := "010"%char.

(** The run passes every check of [main]; [whole] is the sequence read
    from the file. *)
Definition accepted (fs : filesystem) (a : args) (whole : str) : Prop :=
  read_sequence_file fs (file a) = inr whole
  /\ step a <= window a
  /\ 0 <= start_pos a
  /\ end_pos a whole <= len whole
  /\ start_pos a < end_pos a whole.

(** The events of a run that completes: the call of the engine on
    [sequence], the two files named after [stem] with the same table, and
    the three lines on standard output. *)
Definition success_events (a : args) (sequence : str) (stem : string)
    (table : list Z * list Q * list Q) : list event :=
  [CallStats sequence (window a) (step a);
   ToCsv (stem ++ ".csv") table;
   Savefig (stem ++ ".png") table;
   Print "Analysis complete. Results saved to:";
   Print ("  CSV: " ++ (stem ++ ".csv"));
   Print ("  Plot: " ++ (stem ++ ".png"))]%string.

(** Closes a branch of [main] that prints one error and exits. *)
Ltac fatal_branch :=
  eexists; split; [reflexivity | discriminate].

(** ** Facts about the built-ins *)

Section Builtins.

Lemma len_nonneg {A} (s : list A) : 0 <= len s.
Proof. unfold len. lia. Qed.

Lemma count_count_occ (s : str) (c : ascii) :
  count s c = Z.of_nat (count_occ ascii_dec s c).
Proof.
  induction s as [|x rest IH]; simpl; [reflexivity|].
  rewrite IH. destruct (ascii_dec x c) as [->|Hne].
  - rewrite Ascii.eqb_refl. lia.
  - apply Ascii.eqb_neq in Hne. rewrite Hne. lia.
Qed.

Lemma count_nonneg (s : str) (c : ascii) : 0 <= count s c.
Proof. rewrite count_count_occ. lia. Qed.

(** Two different symbols share the places of a string. *)
Lemma count_two_le (s : str) (c d : ascii) :
  c <> d -> count s c + count s d <= len s.
Proof.
  intros Hcd. unfold len.
  induction s as [|x rest IH]; simpl List.length; simpl count; [lia|].
  destruct (Ascii.eqb_spec x c) as [->|_];
    destruct (Ascii.eqb_spec c d) as [E|_];
    try (destruct (Ascii.eqb_spec x d)); try congruence; lia.
Qed.

Lemma range_length_nonneg lo hi S : 0 < S -> 0 <= range_length lo hi S.
Proof.
  intros HS. unfold range_length.
  destruct (Z.ltb_spec lo hi); [|lia].
  assert (0 <= (hi - lo - 1) / S) by (apply Z.div_pos; lia). lia.
Qed.

Lemma range_ascending stop S :
  0 < S ->
  range 0 stop S = inr (multiples S (Z.to_nat (range_length 0 stop S))).
Proof.
  intros HS. unfold range.
  destruct (Z.eqb_spec S 0); [lia|].
  destruct (Z.ltb_spec 0 S); [|lia].
  reflexivity.
Qed.

Lemma multiples_length S n : List.length (multiples S n) = n.
Proof. unfold multiples. now rewrite length_map, length_seq. Qed.

Lemma multiples_nth S n k :
  (k < n)%nat -> nth_error (multiples S n) k = Some (Z.of_nat k * S).
Proof.
  intros Hk. unfold multiples.
  rewrite nth_error_map, nth_error_seq.
  destruct (Nat.ltb_spec k n); [reflexivity|lia].
Qed.

Lemma multiples_nth_inv S n k i :
  nth_error (multiples S n) k = Some i -> (k < n)%nat /\ i = Z.of_nat k * S.
Proof.
  intros H.
  assert (Hk : (k < n)%nat).
  { rewrite <- (multiples_length S n). apply nth_error_Some. congruence. }
  rewrite (multiples_nth S Hk) in H. split; [exact Hk|congruence].
Qed.

(** A slice that lies inside the string has the length its bounds give. *)
Lemma slice_length {A} (s : list A) (lo hi : Z) :
  0 <= lo -> lo <= hi -> hi <= len s -> len (slice s lo hi) = hi - lo.
Proof.
  intros H0 H1 H2. unfold slice, adjust_index, len in *.
  destruct (Z.ltb_spec lo 0); [lia|].
  destruct (Z.ltb_spec hi 0); [lia|].
  rewrite length_firstn, length_skipn. lia.
Qed.

End Builtins.

(** ** The loop of [calculate_stats] *)

Section Engine.

Variable sequence : str.
Variables W S : Z.

Let N := len sequence.

(** With a non-zero window size no pass of the loop raises, and the
    loop appends one row per item, in order. *)
Lemma for_each_window_stats (items : list Z) (acc : stats) :
  W <> 0 ->
  for_each (window_stats sequence W) items acc =
  inr (mkStats (positions acc ++ map (position_at W) items)
               (gt_totals acc ++ map (gt_total_at sequence W) items)
               (g_t_ratios acc ++ map (g_t_ratio_at sequence W) items)).
Proof.
  intros HW. revert acc.
  induction items as [|i rest IH]; intros acc; simpl.
  - rewrite !app_nil_r. now destruct acc.
  - unfold window_stats at 1, truediv.
    destruct (Z.eqb_spec W 0) as [|_]; [contradiction|].
    cbn [bind ret].
    assert (Hratio :
      (if 0 <? count (slice sequence i (i + W)) "T"
       then if count (slice sequence i (i + W)) "T" =? 0
            then raise ZeroDivisionError
            else ret (inject_Z (count (slice sequence i (i + W)) "G")
                      / inject_Z (count (slice sequence i (i + W)) "T"))%Q
       else ret 0%Q)
      = inr (g_t_ratio_at sequence W i)).
    { unfold g_t_ratio_at, window_at.
      destruct (Z.ltb_spec 0 (count (slice sequence i (i + W)) "T"));
        [|reflexivity].
      destruct (Z.eqb_spec (count (slice sequence i (i + W)) "T") 0);
        [lia|reflexivity]. }
    rewrite Hratio. cbn [bind ret].
    rewrite IH. cbn [positions gt_totals g_t_ratios].
    rewrite <- !app_assoc. reflexivity.
Qed.

(** The rows of [calculate_stats], read off the start indices that
    [range] yields. *)
Lemma calculate_stats_rows (starts : list Z) :
  W <> 0 ->
  range 0 (N - W + 1) S = inr starts ->
  calculate_stats sequence W S =
  inr (map (position_at W) starts,
       map (gt_total_at sequence W) starts,
       map (g_t_ratio_at sequence W) starts).
Proof.
  intros HW Hrange. unfold calculate_stats.
  fold N. rewrite Hrange. cbn [bind].
  rewrite for_each_window_stats by assumption. reflexivity.
Qed.

Lemma calculate_stats_ascending :
  1 <= W -> 1 <= S ->
  calculate_stats sequence W S =
  inr (map (position_at W) (multiples S (rows N W S)),
       map (gt_total_at sequence W) (multiples S (rows N W S)),
       map (g_t_ratio_at sequence W) (multiples S (rows N W S))).
Proof.
  intros HW HS. apply calculate_stats_rows; [lia|].
  apply range_ascending. lia.
Qed.

Lemma rows_enough :
  N >= W -> 1 <= S -> Z.of_nat (rows N W S) = (N - W) / S + 1.
Proof.
  intros HN HS. unfold rows, range_length.
  destruct (Z.ltb_spec 0 (N - W + 1)); [|lia].
  replace (N - W + 1 - 0 - 1) with (N - W) by lia.
  assert (0 <= (N - W) / S) by (apply Z.div_pos; lia). lia.
Qed.

Lemma rows_short : N < W -> rows N W S = 0%nat.
Proof.
  intros HN. unfold rows, range_length.
  destruct (Z.ltb_spec 0 (N - W + 1)); [lia|reflexivity].
Qed.

(** Every start index leaves room for a whole window. *)
Lemma start_in_range (k : nat) :
  1 <= S -> (k < rows N W S)%nat ->
  0 <= Z.of_nat k * S /\ Z.of_nat k * S + W <= N.
Proof.
  intros HS Hk. unfold rows, range_length in Hk.
  destruct (Z.ltb_spec 0 (N - W + 1)); [|simpl in Hk; lia].
  replace (N - W + 1 - 0 - 1) with (N - W) in Hk by lia.
  assert (0 <= (N - W) / S) by (apply Z.div_pos; lia).
  assert (Z.of_nat k <= (N - W) / S) by lia.
  assert (S * ((N - W) / S) <= N - W) by (apply Z.mul_div_le; lia).
  nia.
Qed.

Lemma window_length (k : nat) :
  1 <= W -> 1 <= S -> (k < rows N W S)%nat ->
  len (window_at sequence W (Z.of_nat k * S)) = W.
Proof.
  intros HW HS Hk. destruct (start_in_range HS Hk) as [H0 H1].
  unfold window_at. fold N in H1. unfold N in H1.
  rewrite slice_length; lia.
Qed.

End Engine.

(** ** Arithmetic of the two quotients *)

Lemma quotient_bounds (lo hi x d : Z) :
  0 < d -> lo * d <= x -> x <= hi * d ->
  (inject_Z lo <= inject_Z x / inject_Z d)%Q /\
  (inject_Z x / inject_Z d <= inject_Z hi)%Q.
Proof.
  intros Hd Hlo Hhi.
  assert (HdQ : (0 < inject_Z d)%Q).
  { change 0%Q with (inject_Z 0). rewrite <- Zlt_Qlt. exact Hd. }
  split.
  - apply Qle_shift_div_l; [exact HdQ|].
    rewrite <- inject_Z_mult, <- Zle_Qle. exact Hlo.
  - apply Qle_shift_div_r; [exact HdQ|].
    rewrite <- inject_Z_mult, <- Zle_Qle. exact Hhi.
Qed.

Lemma multiples_In (S M i : Z) :
  1 <= S -> 0 <= M ->
  In i (multiples S (Z.to_nat (M / S + 1))) <-> 0 <= i <= M /\ (S | i).
Proof.
  intros HS HM.
  assert (Hq : 0 <= M / S) by (apply Z.div_pos; lia).
  assert (Hle : S * (M / S) <= M) by (apply Z.mul_div_le; lia).
  unfold multiples. rewrite in_map_iff. split.
  - intros (k & <- & Hk). apply in_seq in Hk.
    split; [nia|]. exists (Z.of_nat k). reflexivity.
  - intros ((H0 & H1) & (q & ->)).
    assert (0 <= q) by nia.
    assert (q <= M / S) by (apply Z.div_le_lower_bound; lia).
    exists (Z.to_nat q). split; [lia|]. apply in_seq. lia.
Qed.

(** ** Properties of the engine *)

(** C1.  On a sequence of length [N >= W], with [W >= 1] and
    [1 <= S <= W], [calculate_stats] returns [(N - W) / S + 1] rows: the
    three lists have that length, row [k] belongs to the window that
    starts at [k * S], and the start indices are exactly the multiples of
    [S] between [0] and [N - W]. *)
Theorem calculate_stats_row_count (sequence : str) (W S : Z) :
  1 <= W -> 1 <= S <= W -> len sequence >= W ->
  let n := (len sequence - W) / S + 1 in
  let starts := multiples S (Z.to_nat n) in
  exists ps gts rs,
    calculate_stats sequence W S = inr (ps, gts, rs)
    /\ len ps = n /\ len gts = n /\ len rs = n
    /\ ps = map (fun i => i + W / 2) starts
    /\ gts = map (gt_total_at sequence W) starts
    /\ rs = map (g_t_ratio_at sequence W) starts
    /\ (forall i, In i starts <-> 0 <= i <= len sequence - W /\ (S | i)).
Proof.
  intros HW [HS HSW] HN n starts.
  assert (Hn : Z.to_nat n = rows (len sequence) W S).
  { unfold n. rewrite <- (rows_enough sequence HN HS). lia. }
  assert (Hn0 : 0 <= n).
  { unfold n. assert (0 <= (len sequence - W) / S) by (apply Z.div_pos; lia).
    lia. }
  exists (map (position_at W) starts),
         (map (gt_total_at sequence W) starts),
         (map (g_t_ratio_at sequence W) starts).
  split.
  { unfold starts. rewrite Hn. now apply calculate_stats_ascending. }
  unfold len. rewrite !length_map. unfold starts at 1 2 3.
  rewrite multiples_length.
  repeat match goal with |- _ /\ _ => split end;
    try lia; try reflexivity.
  intros i. unfold starts, n. unfold len in HN. apply multiples_In; lia.
Qed.

Lemma calculate_stats_row_count_witness :
  (1 <= 4 /\ 1 <= 2 <= 4 /\ len (list_ascii_of_string "GGTTAAGG") >= 4)
  /\ exists ps gts rs,
       calculate_stats (list_ascii_of_string "GGTTAAGG") 4 2
       = inr (ps, gts, rs)
       /\ len ps = 3 /\ len gts = 3 /\ len rs = 3 /\ ps = [2; 4; 6].
Proof.
  assert (H : 1 <= 4 /\ 1 <= 2 <= 4
              /\ len (list_ascii_of_string "GGTTAAGG") >= 4)
    by (vm_compute; intuition discriminate).
  split; [exact H|].
  destruct H as (HW & HS & HN).
  destruct (calculate_stats_row_count (list_ascii_of_string "GGTTAAGG")
              HW HS HN)
    as (ps & gts & rs & Hrun & Hp & Hg & Hr & Hps & _).
  exists ps, gts, rs. repeat split; assumption.
Defined.

Lemma nth_map_multiples {B} (f : Z -> B) (S : Z) (n k : nat) :
  (k < n)%nat ->
  nth_error (map f (multiples S n)) k = Some (f (Z.of_nat k * S)).
Proof.
  intros Hk. rewrite nth_error_map, (multiples_nth S Hk). reflexivity.
Qed.

(** Counts of the two symbols in a whole window. *)
Lemma window_counts (sequence : str) (W S : Z) (k : nat) :
  1 <= W -> 1 <= S -> (k < rows (len sequence) W S)%nat ->
  let window := window_at sequence W (Z.of_nat k * S) in
  0 <= count window "G" /\ 0 <= count window "T"
  /\ count window "G" + count window "T" <= W.
Proof.
  intros HW HS Hk window.
  pose proof (window_length sequence HW HS Hk) as Hlen. fold window in Hlen.
  pose proof (@count_two_le window "G" "T") as Hle.
  rewrite Hlen in Hle.
  repeat split; try apply count_nonneg. apply Hle. discriminate.
Qed.

(** C2.  For [W >= 1] and [S >= 1], [calculate_stats] returns, and the
    ratio of every row is [0] when its window holds no [T] and the
    quotient of the count of [G] by the count of [T] otherwise: the
    division is never done with a zero denominator. *)
Theorem g_t_ratio_zero_guard (sequence : str) (W S : Z) :
  1 <= W -> 1 <= S ->
  exists ps gts rs,
    calculate_stats sequence W S = inr (ps, gts, rs)
    /\ List.length rs = rows (len sequence) W S
    /\ forall k, (k < rows (len sequence) W S)%nat ->
         let window := window_at sequence W (Z.of_nat k * S) in
         exists r,
           nth_error rs k = Some r
           /\ (count window "T" = 0 -> r = 0%Q)
           /\ (count window "T" <> 0 ->
               r = (inject_Z (count window "G")
                    / inject_Z (count window "T"))%Q).
Proof.
  intros HW HS.
  eexists _, _, _. split; [now apply calculate_stats_ascending|].
  split; [now rewrite length_map, multiples_length|].
  intros k Hk window.
  exists (g_t_ratio_at sequence W (Z.of_nat k * S)).
  split; [now apply nth_map_multiples|].
  unfold g_t_ratio_at. fold window.
  pose proof (count_nonneg window "T").
  destruct (Z.ltb_spec 0 (count window "T")); split; intros; try lia;
    reflexivity.
Qed.

Lemma g_t_ratio_zero_guard_witness :
  (1 <= 4 /\ 1 <= 2)
  /\ exists ps gts rs,
       calculate_stats (list_ascii_of_string "GGTTAAGG") 4 2
       = inr (ps, gts, rs)
       /\ nth_error rs 0 = Some (2 # 2)%Q /\ nth_error rs 2 = Some 0%Q.
Proof.
  assert (H : 1 <= 4 /\ 1 <= 2) by lia.
  split; [exact H|]. destruct H as (HW & HS).
  destruct (g_t_ratio_zero_guard (list_ascii_of_string "GGTTAAGG") HW HS)
    as (ps & gts & rs & Hrun & Hlen & Hrows).
  exists ps, gts, rs. split; [exact Hrun|].
  split.
  - destruct (Hrows 0%nat) as (r & Hr & _ & Hq); [vm_compute; lia|].
    rewrite Hr, Hq; [reflexivity|vm_compute; discriminate].
  - destruct (Hrows 2%nat) as (r & Hr & Hz & _); [vm_compute; lia|].
    rewrite Hr, Hz; reflexivity.
Defined.

(** C3.  For [W >= 1] and [S >= 1], every window has [W] symbols and the
    fraction of its row is [(g + t) / W], where [g] and [t] are the
    numbers of symbols of the window equal to the characters [G] and [T];
    the fraction lies between [0] and [1]. *)
Theorem gt_total_fraction (sequence : str) (W S : Z) :
  1 <= W -> 1 <= S ->
  exists ps gts rs,
    calculate_stats sequence W S = inr (ps, gts, rs)
    /\ List.length gts = rows (len sequence) W S
    /\ forall k, (k < rows (len sequence) W S)%nat ->
         let window := window_at sequence W (Z.of_nat k * S) in
         let g := Z.of_nat (count_occ ascii_dec window "G"%char) in
         let t := Z.of_nat (count_occ ascii_dec window "T"%char) in
         len window = W
         /\ exists a,
              nth_error gts k = Some a
              /\ a = (inject_Z (g + t) / inject_Z W)%Q
              /\ (0 <= a <= 1)%Q.
Proof.
  intros HW HS.
  eexists _, _, _. split; [now apply calculate_stats_ascending|].
  split; [now rewrite length_map, multiples_length|].
  intros k Hk window g t.
  split; [now apply window_length|].
  exists (gt_total_at sequence W (Z.of_nat k * S)).
  split; [now apply nth_map_multiples|].
  unfold gt_total_at. fold window.
  destruct (window_counts sequence HW HS Hk) as (Hg & Ht & Hsum).
  fold window in Hg, Ht, Hsum.
  unfold g, t. rewrite <- !count_count_occ.
  split; [reflexivity|].
  apply (@quotient_bounds 0 1); lia.
Qed.

Lemma gt_total_fraction_witness :
  (1 <= 4 /\ 1 <= 2)
  /\ exists ps gts rs,
       calculate_stats (list_ascii_of_string "GGTTAAGG") 4 2
       = inr (ps, gts, rs)
       /\ exists a, nth_error gts 1 = Some a /\ a = (2 # 4)%Q
                    /\ (0 <= a <= 1)%Q.
Proof.
  assert (H : 1 <= 4 /\ 1 <= 2) by lia.
  split; [exact H|]. destruct H as (HW & HS).
  destruct (gt_total_fraction (list_ascii_of_string "GGTTAAGG") HW HS)
    as (ps & gts & rs & Hrun & Hlen & Hrows).
  exists ps, gts, rs. split; [exact Hrun|].
  destruct (Hrows 1%nat) as (_ & a & Ha & Hq & Hbounds); [vm_compute; lia|].
  exists a. split; [exact Ha|]. split; [|exact Hbounds].
  rewrite Hq. reflexivity.
Defined.

(** C6.  On a sequence shorter than the window, with a step of at least
    1, [calculate_stats] returns three empty lists and raises nothing. *)
Theorem short_sequence_no_rows (sequence : str) (W S : Z) :
  1 <= S -> len sequence < W ->
  calculate_stats sequence W S = inr ([], [], []).
Proof.
  intros HS HN.
  pose proof (len_nonneg sequence).
  rewrite calculate_stats_ascending by lia.
  rewrite rows_short by assumption. reflexivity.
Qed.

Lemma short_sequence_no_rows_witness :
  (1 <= 2 /\ len (@nil ascii) < 4)
  /\ calculate_stats [] 4 2 = inr ([], [], []).
Proof.
  assert (H : 1 <= 2 /\ len (@nil ascii) < 4) by (split; [lia|reflexivity]).
  split; [exact H|].
  apply short_sequence_no_rows; apply H.
Defined.

(** C10.  For [W >= 1] and [S >= 1], in every window with at least one [T]
    the count of [G] is at most [W] minus the count of [T], and the ratio
    of every row lies between [0] and [W - 1]. *)
Theorem g_t_ratio_bounds (sequence : str) (W S : Z) :
  1 <= W -> 1 <= S ->
  exists ps gts rs,
    calculate_stats sequence W S = inr (ps, gts, rs)
    /\ List.length rs = rows (len sequence) W S
    /\ forall k, (k < rows (len sequence) W S)%nat ->
         let window := window_at sequence W (Z.of_nat k * S) in
         (0 < count window "T" ->
          count window "G" <= W - count window "T")
         /\ exists r,
              nth_error rs k = Some r
              /\ (0 <= r)%Q /\ (r <= inject_Z (W - 1))%Q.
Proof.
  intros HW HS.
  eexists _, _, _. split; [now apply calculate_stats_ascending|].
  split; [now rewrite length_map, multiples_length|].
  intros k Hk window.
  destruct (window_counts sequence HW HS Hk) as (Hg & Ht & Hsum).
  fold window in Hg, Ht, Hsum.
  split; [lia|].
  exists (g_t_ratio_at sequence W (Z.of_nat k * S)).
  split; [now apply nth_map_multiples|].
  unfold g_t_ratio_at. fold window.
  destruct (Z.ltb_spec 0 (count window "T")) as [Hpos|Hzero].
  - apply (@quotient_bounds 0 (W - 1)); [exact Hpos|lia|nia].
  - split; [apply Qle_refl|].
    change 0%Q with (inject_Z 0). rewrite <- Zle_Qle. lia.
Qed.

Lemma g_t_ratio_bounds_witness :
  (1 <= 4 /\ 1 <= 2)
  /\ exists ps gts rs,
       calculate_stats (list_ascii_of_string "GGTTAAGG") 4 2
       = inr (ps, gts, rs)
       /\ exists r, nth_error rs 0 = Some r
                    /\ (0 <= r)%Q /\ (r <= inject_Z 3)%Q.
Proof.
  assert (H : 1 <= 4 /\ 1 <= 2) by lia.
  split; [exact H|]. destruct H as (HW & HS).
  destruct (g_t_ratio_bounds (list_ascii_of_string "GGTTAAGG") HW HS)
    as (ps & gts & rs & Hrun & Hlen & Hrows).
  exists ps, gts, rs. split; [exact Hrun|].
  destruct (Hrows 0%nat) as (_ & r & Hr & H0 & H1); [vm_compute; lia|].
  exists r. repeat split; assumption.
Defined.

(** ** The reported position *)

Lemma slice_nth {A} (s : list A) (lo hi j : Z) :
  0 <= lo -> hi <= len s -> 0 <= j < hi - lo ->
  nth_error (slice s lo hi) (Z.to_nat j) = nth_error s (Z.to_nat (lo + j)).
Proof.
  intros H0 H1 Hj. unfold slice, adjust_index, len in *.
  destruct (Z.ltb_spec lo 0); [lia|].
  destruct (Z.ltb_spec hi 0); [lia|].
  rewrite nth_error_firstn, nth_error_skipn.
  destruct (Nat.ltb_spec (Z.to_nat j)
              (Z.to_nat (Z.min hi (Z.of_nat (List.length s))
                         - Z.min lo (Z.of_nat (List.length s))))); [|lia].
  f_equal. lia.
Qed.

Lemma even_half (W : Z) : Z.even W = true -> W = 2 * (W / 2).
Proof.
  intros H. apply Z.even_spec in H. destruct H as (m & ->).
  rewrite (Z.mul_comm 2 m), Z.div_mul by lia. lia.
Qed.

Lemma odd_half (W : Z) : Z.odd W = true -> W = 2 * (W / 2) + 1.
Proof.
  intros H. apply Z.odd_spec in H. destruct H as (m & ->).
  rewrite (Z.mul_comm 2 m), Z.div_add_l by lia.
  change (1 / 2) with 0. lia.
Qed.

Lemma position_even (i m : Z) :
  (inject_Z (i + m) == interval_center i (2 * m))%Q
  /\ (inject_Z (i + m) == index_center i (2 * m) + (1 # 2))%Q.
Proof.
  unfold interval_center, index_center, Z.sub.
  rewrite !inject_Z_plus, inject_Z_mult.
  change (inject_Z (- (1))) with (- (1))%Q. change (inject_Z 2) with 2%Q.
  split; field.
Qed.

Lemma position_odd (i m : Z) :
  (inject_Z (i + m) == index_center i (2 * m + 1))%Q.
Proof.
  unfold index_center, Z.sub.
  rewrite !inject_Z_plus, inject_Z_mult.
  change (inject_Z (- (1))) with (- (1))%Q. change (inject_Z 2) with 2%Q.
  change (inject_Z 1) with 1%Q. field.
Qed.

(** C4, as the code has it.  For [W >= 1] and [S >= 1] the position of the
    row of the window that starts at [i] is [i + W / 2] with the floor
    quotient.  It is an index of the sequence given to the engine, inside
    the window, and names the symbol at offset [W / 2] of the window.  For
    an even [W] it is the middle [i + W / 2] of the bounds of the window,
    half a place to the right of the mean of its first and last index;
    for an odd [W] it is that mean, the central index. *)
Theorem position_midpoint (sequence : str) (W S : Z) :
  1 <= W -> 1 <= S ->
  exists ps gts rs,
    calculate_stats sequence W S = inr (ps, gts, rs)
    /\ List.length ps = rows (len sequence) W S
    /\ forall k, (k < rows (len sequence) W S)%nat ->
         let i := Z.of_nat k * S in
         exists p,
           nth_error ps k = Some p
           /\ p = i + W / 2
           /\ i <= p < i + W /\ 0 <= p < len sequence
           /\ nth_error sequence (Z.to_nat p)
              = nth_error (window_at sequence W i) (Z.to_nat (W / 2))
           /\ (Z.even W = true ->
               (inject_Z p == interval_center i W)%Q
               /\ (inject_Z p == index_center i W + (1 # 2))%Q)
           /\ (Z.odd W = true -> (inject_Z p == index_center i W)%Q).
Proof.
  intros HW HS.
  eexists _, _, _. split; [now apply calculate_stats_ascending|].
  split; [now rewrite length_map, multiples_length|].
  intros k Hk i. exists (i + W / 2).
  destruct (start_in_range sequence W HS Hk) as [Hi0 HiN]. fold i in Hi0, HiN.
  assert (Hhalf : 0 <= W / 2 < W).
  { split; [apply Z.div_pos; lia|apply Z.div_lt_upper_bound; lia]. }
  split; [now apply (nth_map_multiples (position_at W))|].
  split; [reflexivity|].
  split; [lia|]. split; [lia|].
  split.
  { unfold window_at. rewrite slice_nth; [reflexivity|lia..]. }
  split.
  - intros Heven. rewrite (even_half W Heven) at 2 4. apply position_even.
  - intros Hodd. rewrite (odd_half W Hodd) at 2. apply position_odd.
Qed.

Lemma position_midpoint_witness :
  (1 <= 4 /\ 1 <= 2)
  /\ exists ps gts rs,
       calculate_stats (list_ascii_of_string "GGTTAAGG") 4 2
       = inr (ps, gts, rs)
       /\ exists p, nth_error ps 1 = Some p /\ p = 4
                    /\ (inject_Z p == interval_center 2 4)%Q.
Proof.
  assert (H : 1 <= 4 /\ 1 <= 2) by lia.
  split; [exact H|]. destruct H as (HW & HS).
  destruct (position_midpoint (list_ascii_of_string "GGTTAAGG") HW HS)
    as (ps & gts & rs & Hrun & Hlen & Hrows).
  exists ps, gts, rs. split; [exact Hrun|].
  destruct (Hrows 1%nat) as (p & Hp & Hval & _ & _ & _ & Heven & _);
    [vm_compute; lia|].
  exists p. split; [exact Hp|]. split; [exact Hval|].
  apply Heven. reflexivity.
Defined.

(** C4, as it is worded, fails.  On [GGTT] with [W = 4] and [S = 2] the only window starts at 0 and its
    position is 2: to the right of the mean 3/2 of its indices, and equal
    to the middle 2 of its bounds, not one place to the left of either. *)
Lemma even_window_position_not_left :
  calculate_stats (list_ascii_of_string "GGTT") 4 2
  = inr ([2], [(4 # 4)%Q], [(2 # 2)%Q])
  /\ (index_center 0 4 < inject_Z 2)%Q
  /\ (inject_Z 2 == interval_center 0 4)%Q
  /\ ~ midpoint_one_left_of index_center
  /\ ~ midpoint_one_left_of interval_center.
Proof.
  assert (Hrun : calculate_stats (list_ascii_of_string "GGTT") 4 2
                 = inr ([2], [(4 # 4)%Q], [(2 # 2)%Q])) by reflexivity.
  split; [exact Hrun|].
  split; [reflexivity|]. split; [reflexivity|].
  split; intros Hclaim;
    specialize (Hclaim (list_ascii_of_string "GGTT") 4 2 0%nat
                  [2] [(4 # 4)%Q] [(2 # 2)%Q] 2);
    discriminate Hclaim; try reflexivity; lia.
Qed.

(** ** The validation in [main] *)

Lemma read_sequence_file_exists fs p sequence :
  read_sequence_file fs p = inr sequence -> path_exists fs p = true.
Proof.
  unfold read_sequence_file, path_exists.
  destruct (fs p); [reflexivity|discriminate].
Qed.

(** A run that only prints one error and exits with status 1 neither
    calls the engine nor writes a file. *)
Lemma fatal_run (r : list event * outcome) (msg : string) :
  r = ([PrintErr msg], SysExit 1) ->
  exit_status (snd r) <> 0 /\ ~ runs_engine r /\ ~ writes_output r.
Proof.
  intros ->. split; [discriminate|]. split.
  - intros (sequence & W & S & [H|[]]). discriminate H.
  - intros (name & table & [[H|[]]|[H|[]]]); discriminate H.
Qed.

(** Each of the five input errors ends the run with one message. *)
Lemma main_rejects (fs : filesystem) (a : args) :
  validation_failure fs a ->
  exists msg, main fs a = ([PrintErr msg], SysExit 1) /\ msg <> ""%string.
Proof.
  intros Hfail. unfold main.
  destruct (path_exists fs (file a)) eqn:Hexists; cbn [negb];
    [|fatal_branch].
  destruct (Z.gtb_spec (step a) (window a)) as [Hstep|Hstep];
    [fatal_branch|].
  destruct (read_sequence_file fs (file a)) as [e|sequence] eqn:Hread.
  { unfold read_sequence_file, path_exists in *.
    destruct (fs (file a)); discriminate. }
  destruct (Z.ltb_spec (start_pos a) 0) as [Hstart|Hstart];
    [fatal_branch|].
  destruct (Z.gtb_spec (end_pos a sequence) (len sequence)) as [Hend|Hend];
    [fatal_branch|].
  destruct (Z.geb_spec (start_pos a) (end_pos a sequence)) as [Hord|Hord];
    [fatal_branch|].
  exfalso.
  destruct Hfail as [Hnone|Hgt|Hneg|s' Hs' Hbeyond|s' Hs' Hnot].
  - unfold path_exists in Hexists. rewrite Hnone in Hexists. discriminate.
  - lia.
  - lia.
  - assert (s' = sequence) by congruence. subst s'. lia.
  - assert (s' = sequence) by congruence. subst s'. lia.
Qed.

(** A run that passes the validation calls the engine on the trimmed
    sequence with the window size and step as given. *)
Lemma main_validated (fs : filesystem) (a : args) (sequence : str) :
  read_sequence_file fs (file a) = inr sequence ->
  step a <= window a ->
  0 <= start_pos a -> end_pos a sequence <= len sequence ->
  start_pos a < end_pos a sequence ->
  main fs a =
  let trimmed := slice sequence (start_pos a) (end_pos a sequence) in
  let call := CallStats trimmed (window a) (step a) in
  match calculate_stats trimmed (window a) (step a) with
  | inl e => ([call], Uncaught e)
  | inr (ps, gts, rs) =>
    let table := (map (fun p => p + start_pos a) ps, gts, rs) in
    let stem := output_stem a (start_pos a) (end_pos a sequence) in
    ([call;
      ToCsv (stem ++ ".csv") table;
      Savefig (stem ++ ".png") table;
      Print "Analysis complete. Results saved to:";
      Print ("  CSV: " ++ (stem ++ ".csv"));
      Print ("  Plot: " ++ (stem ++ ".png"))]%string,
     Completed)
  end.
Proof.
  intros Hread Hstep H0 Hend Hord. unfold main.
  rewrite (read_sequence_file_exists _ _ Hread). cbn [negb].
  destruct (Z.gtb_spec (step a) (window a)); [lia|].
  rewrite Hread.
  destruct (Z.ltb_spec (start_pos a) 0); [lia|].
  destruct (Z.gtb_spec (end_pos a sequence) (len sequence)); [lia|].
  destruct (Z.geb_spec (start_pos a) (end_pos a sequence)); [lia|].
  cbv zeta.
  destruct (calculate_stats _ _ _) as [e|[[ps gts] rs]]; reflexivity.
Qed.

(** C8.  Each of the five input errors (no such file, step above the
    window size, a start below 1, an end beyond the sequence, a start not
    before the end) ends the run with exit status 1 after one message on
    standard error; the engine has not been called and neither the CSV
    nor the plot has been written. *)
Theorem validation_failure_fatal (fs : filesystem) (a : args) :
  validation_failure fs a ->
  exists msg,
    main fs a = ([PrintErr msg], SysExit 1)
    /\ msg <> ""%string
    /\ exit_status (snd (main fs a)) <> 0
    /\ ~ runs_engine (main fs a)
    /\ ~ writes_output (main fs a).
Proof.
  intros Hfail.
  destruct (main_rejects Hfail) as (msg & Hrun & Hmsg).
  exists msg. split; [exact Hrun|]. split; [exact Hmsg|].
  exact (fatal_run Hrun).
Qed.

Lemma validation_failure_fatal_witness :
  validation_failure example_fs (mkArgs "chrIX.fa" 20 30 None None)
  /\ exists msg,
       main example_fs (mkArgs "chrIX.fa" 20 30 None None)
       = ([PrintErr msg], SysExit 1)
       /\ ~ writes_output (main example_fs (mkArgs "chrIX.fa" 20 30 None None)).
Proof.
  assert (H : validation_failure example_fs
                (mkArgs "chrIX.fa" 20 30 None None))
    by (apply step_exceeds_window; reflexivity).
  split; [exact H|].
  destruct (validation_failure_fatal H) as (msg & Hrun & _ & _ & _ & Hout).
  exists msg. split; [exact Hrun|exact Hout].
Defined.

(** C9.  When the file yields the empty sequence and neither [--start]
    nor [--end] is given (the step not above the window size), both
    bounds are 0 and the run ends with the error of a start that is not
    before the end: no table is produced. *)
Theorem empty_sequence_rejected (fs : filesystem) (a : args) :
  read_sequence_file fs (file a) = inr [] ->
  step a <= window a ->
  start a = None -> end_ a = None ->
  start_pos a = 0 /\ end_pos a [] = 0
  /\ main fs a =
     ([PrintErr "Error: Start position (None) must be less than end position (None)"],
      SysExit 1)
  /\ ~ writes_output (main fs a).
Proof.
  intros Hread Hstep Hstart Hend.
  assert (Hrun : main fs a =
     ([PrintErr "Error: Start position (None) must be less than end position (None)"],
      SysExit 1)).
  { unfold main.
    rewrite (read_sequence_file_exists _ _ Hread). cbn [negb].
    destruct (Z.gtb_spec (step a) (window a)); [lia|].
    rewrite Hread. unfold start_pos, end_pos. rewrite Hstart, Hend.
    reflexivity. }
  unfold start_pos, end_pos. rewrite Hstart, Hend.
  repeat split; try reflexivity; try exact Hrun.
  apply (fatal_run Hrun).
Qed.

Lemma empty_sequence_rejected_witness :
  (read_sequence_file example_fs "empty.fa" = inr []
   /\ 4 <= 25)
  /\ main example_fs (mkArgs "empty.fa" 25 4 None None) =
     ([PrintErr "Error: Start position (None) must be less than end position (None)"],
      SysExit 1).
Proof.
  assert (H : read_sequence_file example_fs "empty.fa" = inr [] /\ 4 <= 25)
    by (split; [reflexivity|lia]).
  split; [exact H|]. destruct H as (Hread & Hstep).
  apply (@empty_sequence_rejected example_fs
           (mkArgs "empty.fa" 25 4 None None) Hread Hstep eq_refl eq_refl).
Defined.

(** C7, as the code has it.  A step above the window size is turned away
    before the engine is called.  Nothing else about the two numbers is
    checked: with a readable file and a valid range, every window size and
    step with [step <= window] reach the engine unchanged. *)
Theorem only_step_above_window_rejected (fs : filesystem) (a : args) :
  (step a > window a ->
   (exists msg, main fs a = ([PrintErr msg], SysExit 1))
   /\ ~ runs_engine (main fs a))
  /\ (forall sequence,
        read_sequence_file fs (file a) = inr sequence ->
        step a <= window a ->
        0 <= start_pos a -> end_pos a sequence <= len sequence ->
        start_pos a < end_pos a sequence ->
        In (CallStats (slice sequence (start_pos a) (end_pos a sequence))
                      (window a) (step a))
           (fst (main fs a))).
Proof.
  split.
  - intros Hstep.
    destruct (main_rejects (step_exceeds_window fs a Hstep))
      as (msg & Hrun & _).
    split; [exists msg; exact Hrun|]. apply (fatal_run Hrun).
  - intros sequence Hread Hstep H0 Hend Hord.
    rewrite (main_validated fs a Hread Hstep H0 Hend Hord). cbv zeta.
    destruct (calculate_stats _ _ _) as [e|[[ps gts] rs]]; left; reflexivity.
Qed.

Lemma only_step_above_window_rejected_witness :
  (30 > 20
   /\ ~ runs_engine (main example_fs (mkArgs "chrIX.fa" 20 30 None None)))
  /\ (read_sequence_file example_fs "chrIX.fa"
      = inr (list_ascii_of_string "GGTTAAGGTT")
      /\ In (CallStats (list_ascii_of_string "GGTTAAGGTT") 0 (-1))
            (fst (main example_fs (mkArgs "chrIX.fa" 0 (-1) None None)))).
Proof.
  split.
  - assert (H : 30 > 20) by lia. split; [exact H|].
    apply (proj1 (only_step_above_window_rejected example_fs
                    (mkArgs "chrIX.fa" 20 30 None None)) H).
  - assert (H : read_sequence_file example_fs "chrIX.fa"
                = inr (list_ascii_of_string "GGTTAAGGTT")) by reflexivity.
    split; [exact H|].
    apply (proj2 (only_step_above_window_rejected example_fs
                    (mkArgs "chrIX.fa" 0 (-1) None None)) _ H);
      vm_compute; intuition discriminate.
Defined.

(** C7, as it is worded, fails.  With a window size of 4 and a step of 0
    the validation lets the run through and the engine is called (its
    [range] then raises); with a window size of 0 and a step of -1 the run
    even completes and writes an empty table. *)
Lemma invalid_step_reaches_engine :
  main example_fs (mkArgs "chrIX.fa" 4 0 None None)
  = ([CallStats (list_ascii_of_string "GGTTAAGGTT") 4 0],
     Uncaught ValueError)
  /\ main example_fs (mkArgs "chrIX.fa" 0 (-1) None None)
     = ([CallStats (list_ascii_of_string "GGTTAAGGTT") 0 (-1);
         ToCsv "window0-step-1-pos1-10.csv" ([], [], []);
         Savefig "window0-step-1-pos1-10.png" ([], [], []);
         Print "Analysis complete. Results saved to:";
         Print "  CSV: window0-step-1-pos1-10.csv";
         Print "  Plot: window0-step-1-pos1-10.png"],
        Completed)
  /\ ~ rejects_invalid_window_step.
Proof.
  split; [reflexivity|]. split; [reflexivity|].
  intros Hclaim.
  apply (Hclaim example_fs (mkArgs "chrIX.fa" 4 0 None None)).
  - cbn [window step]. lia.
  - exists (list_ascii_of_string "GGTTAAGGTT"), 4, 0. left. reflexivity.
Qed.

(** ** Spacing of the positions and the offset of a subrange *)

Lemma stepped_positions (W S : Z) (n : nat) :
  stepped S (map (position_at W) (multiples S n)).
Proof.
  intros k p q Hp Hq. rewrite nth_error_map in Hp, Hq.
  destruct (nth_error (multiples S n) k) as [i|] eqn:Hi; [|discriminate].
  destruct (nth_error (multiples S n) (Datatypes.S k)) as [j|] eqn:Hj;
    [|discriminate].
  apply multiples_nth_inv in Hi, Hj.
  destruct Hi as [_ Hi], Hj as [_ Hj].
  rewrite Nat2Z.inj_succ in Hj.
  cbn [option_map] in Hp, Hq.
  assert (Ep : p = position_at W i) by congruence.
  assert (Eq : q = position_at W j) by congruence.
  rewrite Ep, Eq, Hi, Hj. unfold position_at. ring.
Qed.

Lemma stepped_shift (d c : Z) (l : list Z) :
  stepped d l -> stepped d (map (fun p => p + c) l).
Proof.
  intros Hl k p q Hp Hq. rewrite nth_error_map in Hp, Hq.
  destruct (nth_error l k) as [p'|] eqn:Hp'; [|discriminate].
  destruct (nth_error l (Datatypes.S k)) as [q'|] eqn:Hq'; [|discriminate].
  injection Hp as <-. injection Hq as <-.
  specialize (Hl k p' q' Hp' Hq'). lia.
Qed.

(** C5.  For [W >= 1] and [S >= 1] consecutive positions returned by
    [calculate_stats] differ by exactly [S].  When [main] accepts a range
    and the sequence given to the engine is the trimmed one, the
    positions written to the CSV file and the plot are those returned for
    the trimmed sequence, each increased by the 0-based start of the
    range, and they still differ by [S]. *)
Theorem positions_step_and_offset (sequence : str) (W S : Z) :
  1 <= W -> 1 <= S ->
  exists ps gts rs,
    calculate_stats sequence W S = inr (ps, gts, rs)
    /\ stepped S ps
    /\ forall (fs : filesystem) (a : args) (whole : str),
         window a = W -> step a = S -> S <= W ->
         read_sequence_file fs (file a) = inr whole ->
         0 <= start_pos a -> end_pos a whole <= len whole ->
         start_pos a < end_pos a whole ->
         slice whole (start_pos a) (end_pos a whole) = sequence ->
         let reported := map (fun p => p + start_pos a) ps in
         stepped S reported
         /\ (forall k p, nth_error ps k = Some p ->
                         nth_error reported k = Some (p + start_pos a))
         /\ exists csv png,
              main fs a =
              ([CallStats sequence W S;
                ToCsv csv (reported, gts, rs);
                Savefig png (reported, gts, rs);
                Print "Analysis complete. Results saved to:";
                Print ("  CSV: " ++ csv);
                Print ("  Plot: " ++ png)]%string,
               Completed).
Proof.
  intros HW HS.
  eexists _, _, _. split; [now apply calculate_stats_ascending|].
  split; [apply stepped_positions|].
  intros fs a whole HaW HaS HSW Hread H0 Hend Hord Htrim reported.
  split; [apply stepped_shift, stepped_positions|].
  split.
  { intros k p Hp. unfold reported. rewrite nth_error_map, Hp. reflexivity. }
  eexists _, _.
  rewrite (main_validated fs a Hread) by lia.
  cbv zeta. rewrite Htrim, HaW, HaS.
  rewrite calculate_stats_ascending by assumption.
  reflexivity.
Qed.

Lemma positions_step_and_offset_witness :
  (1 <= 2 /\ 1 <= 1)
  /\ exists ps gts rs,
       calculate_stats (list_ascii_of_string "TTAAG") 2 1 = inr (ps, gts, rs)
       /\ stepped 1 ps
       /\ exists csv png,
            main example_fs (mkArgs "chrIX.fa" 2 1 (Some 3) (Some 7)) =
            ([CallStats (list_ascii_of_string "TTAAG") 2 1;
              ToCsv csv (map (fun p => p + 2) ps, gts, rs);
              Savefig png (map (fun p => p + 2) ps, gts, rs);
              Print "Analysis complete. Results saved to:";
              Print ("  CSV: " ++ csv);
              Print ("  Plot: " ++ png)]%string,
             Completed).
Proof.
  assert (H : 1 <= 2 /\ 1 <= 1) by lia.
  split; [exact H|]. destruct H as (HW & HS).
  destruct (positions_step_and_offset (list_ascii_of_string "TTAAG") HW HS)
    as (ps & gts & rs & Hrun & Hstep & Hmain).
  exists ps, gts, rs. split; [exact Hrun|]. split; [exact Hstep|].
  destruct (Hmain example_fs (mkArgs "chrIX.fa" 2 1 (Some 3) (Some 7))
              (list_ascii_of_string "GGTTAAGGTT"))
    as (_ & _ & csv & png & Hrep);
    try reflexivity; try (vm_compute; discriminate).
  exists csv, png. exact Hrep.
Defined.

(** ** Runs on concrete inputs *)

(** The sequence [GGTTAAGG] with a window of 4 and a step of 2: windows
    [GGTT], [TTAA] and [AAGG]. *)
Example calculate_stats_GGTTAAGG :
  calculate_stats (list_ascii_of_string "GGTTAAGG") 4 2
  = inr ([2; 4; 6], [4 # 4; 2 # 4; 2 # 4]%Q, [2 # 2; 0 # 2; 0]%Q).
Proof. reflexivity. Qed.

(** Lower-case symbols are not counted. *)
Example count_is_case_sensitive :
  count (list_ascii_of_string "gGtTTg") "G" = 1
  /\ count (list_ascii_of_string "gGtTTg") "T" = 2.
Proof. split; reflexivity. Qed.

(** A zero window size makes the first pass of the loop raise. *)
Example calculate_stats_zero_window :
  calculate_stats (list_ascii_of_string "GGTT") 0 1 = inl ZeroDivisionError.
Proof. reflexivity. Qed.

Example main_missing_file :
  main example_fs (mkArgs "absent.fa" 4 2 None None)
  = ([PrintErr "Error: File absent.fa does not exist"], SysExit 1).
Proof. reflexivity. Qed.

Example main_step_30_window_20 :
  main example_fs (mkArgs "chrIX.fa" 20 30 None None)
  = ([PrintErr "Error: Step size (30) cannot exceed window size (20)"],
     SysExit 1).
Proof. reflexivity. Qed.

Example main_start_zero :
  main example_fs (mkArgs "chrIX.fa" 4 2 (Some 0) None)
  = ([PrintErr "Error: Start position (0) must be positive"], SysExit 1).
Proof. reflexivity. Qed.

Example main_end_beyond :
  main example_fs (mkArgs "chrIX.fa" 4 2 None (Some 11))
  = ([PrintErr "Error: End position (11) exceeds sequence length (10)"],
     SysExit 1).
Proof. reflexivity. Qed.

Example main_start_after_end :
  main example_fs (mkArgs "chrIX.fa" 4 2 (Some 6) (Some 5))
  = ([PrintErr "Error: Start position (6) must be less than end position (5)"],
     SysExit 1).
Proof. reflexivity. Qed.

(** The comparison of the two bounds is made after the conversion: the
    1-based pair [--start 5 --end 5] is the 0-based range [4, 5) and is
    accepted. *)
Example main_start_5_end_5 :
  main example_fs (mkArgs "chrIX.fa" 1 1 (Some 5) (Some 5))
  = ([CallStats (list_ascii_of_string "A") 1 1;
      ToCsv "window1-step1-pos5-5.csv" ([4], [0 # 1]%Q, [0]%Q);
      Savefig "window1-step1-pos5-5.png" ([4], [0 # 1]%Q, [0]%Q);
      Print "Analysis complete. Results saved to:";
      Print "  CSV: window1-step1-pos5-5.csv";
      Print "  Plot: window1-step1-pos5-5.png"],
     Completed).
Proof. reflexivity. Qed.

(** ** The engine outside its documented domain *)

Lemma range_descending (stop S : Z) :
  S < 0 ->
  range 0 stop S = inr (multiples S (Z.to_nat (range_length stop 0 (- S)))).
Proof.
  intros HS. unfold range.
  destruct (Z.eqb_spec S 0); [lia|].
  destruct (Z.ltb_spec 0 S); [lia|].
  reflexivity.
Qed.

(** With a window size of 0 the first pass of the loop raises. *)
Lemma for_each_zero_window (sequence : str) (items : list Z) (acc : stats) :
  items <> [] ->
  for_each (window_stats sequence 0) items acc = inl ZeroDivisionError.
Proof.
  destruct items as [|i rest]; [congruence|]. intros _. reflexivity.
Qed.

(** The four ways a call of [calculate_stats] can go. *)
Lemma calculate_stats_cases (sequence : str) (W S : Z) :
  (S = 0 /\ calculate_stats sequence W S = inl ValueError)
  \/ (0 < S /\ W = 0
      /\ calculate_stats sequence W S = inl ZeroDivisionError)
  \/ (S < 0 /\ W = 0 /\ calculate_stats sequence W S = inr ([], [], []))
  \/ (S <> 0 /\ W <> 0
      /\ exists starts,
           range 0 (len sequence - W + 1) S = inr starts
           /\ calculate_stats sequence W S =
              inr (map (position_at W) starts,
                   map (gt_total_at sequence W) starts,
                   map (g_t_ratio_at sequence W) starts)).
Proof.
  pose proof (len_nonneg sequence) as HN.
  destruct (Z.eq_dec S 0) as [->|HS0].
  { left. split; [reflexivity|]. unfold calculate_stats, range.
    reflexivity. }
  right.
  destruct (Z.eq_dec W 0) as [->|HW0].
  - destruct (Z_lt_le_dec 0 S) as [Hpos|Hneg].
    + left. split; [exact Hpos|]. split; [reflexivity|].
      unfold calculate_stats. rewrite range_ascending by exact Hpos.
      cbn [bind]. rewrite for_each_zero_window; [reflexivity|].
      unfold range_length.
      destruct (Z.ltb_spec 0 (len sequence - 0 + 1)); [|lia].
      assert (0 <= (len sequence - 0 + 1 - 0 - 1) / S)
        by (apply Z.div_pos; lia).
      destruct (Z.to_nat ((len sequence - 0 + 1 - 0 - 1) / S + 1)) eqn:E;
        [lia|discriminate].
    + right. left. split; [lia|]. split; [reflexivity|].
      unfold calculate_stats. rewrite range_descending by lia.
      unfold range_length.
      destruct (Z.ltb_spec (len sequence - 0 + 1) 0); [lia|]. reflexivity.
  - right. right. split; [exact HS0|]. split; [exact HW0|].
    assert (Hrange : exists starts,
               range 0 (len sequence - W + 1) S = inr starts).
    { destruct (Z_lt_le_dec 0 S).
      - eexists. apply range_ascending. assumption.
      - eexists. apply range_descending. lia. }
    destruct Hrange as (starts & Hrange). exists starts.
    split; [exact Hrange|]. now apply calculate_stats_rows.
Qed.

(** X1.  [calculate_stats] raises [ValueError] exactly when the step is 0,
    raises [ZeroDivisionError] exactly when the window size is 0 and the
    step is positive, and returns in every other case. *)
Theorem calculate_stats_raises (sequence : str) (W S : Z) :
  (calculate_stats sequence W S = inl ValueError <-> S = 0)
  /\ (calculate_stats sequence W S = inl ZeroDivisionError
      <-> W = 0 /\ 0 < S)
  /\ ((exists t, calculate_stats sequence W S = inr t)
      <-> S <> 0 /\ (W = 0 -> S < 0)).
Proof.
  destruct (calculate_stats_cases sequence W S)
    as [(HS & Hr)|[(HS & HW & Hr)|[(HS & HW & Hr)|(HS & HW & starts & _ & Hr)]]];
    rewrite Hr; (split; [|split]); split; intros Hx;
    try discriminate Hx;
    try (match type of Hx with
         | ex _ => destruct Hx as [t Ht]; discriminate Ht
         end);
    try reflexivity; try lia;
    try (eexists; reflexivity);
    exfalso; lia.
Qed.

(** X2.  Whenever [calculate_stats] returns, for any window size and step,
    its three lists have the same length. *)
Theorem calculate_stats_equal_lengths (sequence : str) (W S : Z) ps gts rs :
  calculate_stats sequence W S = inr (ps, gts, rs) ->
  List.length ps = List.length gts /\ List.length gts = List.length rs.
Proof.
  intros Hrun.
  destruct (calculate_stats_cases sequence W S)
    as [(HS & Hr)|[(HS & HW & Hr)|[(HS & HW & Hr)|(HS & HW & starts & _ & Hr)]]];
    rewrite Hr in Hrun; try discriminate;
    injection Hrun as <- <- <-; rewrite ?length_map; split; reflexivity.
Qed.

Lemma calculate_stats_equal_lengths_witness :
  calculate_stats (list_ascii_of_string "GG") 5 (-1)
  = inr ([2; 1], [2 # 5; 1 # 5]%Q, [0; 0]%Q)
  /\ List.length [2; 1] = List.length [2 # 5; 1 # 5]%Q
  /\ List.length [2 # 5; 1 # 5]%Q = List.length [0; 0]%Q.
Proof.
  assert (H : calculate_stats (list_ascii_of_string "GG") 5 (-1)
              = inr ([2; 1], [2 # 5; 1 # 5]%Q, [0; 0]%Q)) by reflexivity.
  split; [exact H|].
  exact (calculate_stats_equal_lengths _ _ _ H).
Defined.

(** X3.  With a negative step [calculate_stats] returns: no row when the
    sequence has at least [W - 1] symbols, and
    [(W - N - 2) / (- S) + 1] rows, for the start indices
    [0, S, 2S, ...], when it is shorter. *)
Theorem negative_step_rows (sequence : str) (W S : Z) :
  S < 0 ->
  let N := len sequence in
  let n := if N - W + 1 <? 0 then (W - N - 2) / (- S) + 1 else 0 in
  exists ps gts rs,
    calculate_stats sequence W S = inr (ps, gts, rs)
    /\ len ps = n
    /\ ps = map (fun i => i + W / 2) (multiples S (Z.to_nat n))
    /\ (W - 1 <= N -> ps = [] /\ gts = [] /\ rs = []).
Proof.
  intros HS N n.
  pose proof (len_nonneg sequence) as HN. fold N in HN.
  assert (Hn : range_length (N - W + 1) 0 (- S) = n).
  { unfold range_length, n.
    destruct (Z.ltb_spec (N - W + 1) 0); [|reflexivity].
    replace (0 - (N - W + 1) - 1) with (W - N - 2) by lia. reflexivity. }
  assert (Hn0 : 0 <= n).
  { unfold n. destruct (Z.ltb_spec (N - W + 1) 0); [|lia].
    assert (0 <= (W - N - 2) / - S) by (apply Z.div_pos; lia). lia. }
  destruct (calculate_stats_cases sequence W S)
    as [(HS0 & _)|[(HS0 & _)|[(_ & HW & Hr)|(_ & HW & starts & Hrange & Hr)]]];
    try lia.
  - exists [], [], []. split; [exact Hr|].
    assert (n = 0).
    { unfold n. destruct (Z.ltb_spec (N - W + 1) 0); [lia|reflexivity]. }
    subst n. rewrite H. repeat split; reflexivity.
  - fold N in Hrange. rewrite range_descending, Hn in Hrange by exact HS.
    injection Hrange as <-.
    eexists _, _, _. split; [exact Hr|].
    split; [unfold len; rewrite length_map, multiples_length; lia|].
    split; [reflexivity|].
    intros Hlong.
    assert (n = 0).
    { unfold n. destruct (Z.ltb_spec (N - W + 1) 0); [lia|reflexivity]. }
    rewrite H. repeat split; reflexivity.
Qed.

Lemma negative_step_rows_witness :
  -1 < 0
  /\ exists ps gts rs,
       calculate_stats (list_ascii_of_string "GG") 5 (-1)
       = inr (ps, gts, rs)
       /\ len ps = 2.
Proof.
  assert (H : -1 < 0) by lia.
  split; [exact H|].
  destruct (negative_step_rows (list_ascii_of_string "GG") 5 H)
    as (ps & gts & rs & Hrun & Hlen & _).
  exists ps, gts, rs. split; [exact Hrun|exact Hlen].
Defined.

(** ** What the windows cover *)

(** X4.  With [1 <= S <= W] and a sequence of at least [W] symbols, the
    windows of [calculate_stats] leave no gap: every index below the end
    of the last window lies in the window of some row (whose start is its
    position minus [W / 2]), and fewer than [S] symbols at the end of the
    sequence lie in no window. *)
Theorem windows_cover_sequence (sequence : str) (W S : Z) :
  1 <= W -> 1 <= S <= W -> len sequence >= W ->
  exists ps gts rs,
    calculate_stats sequence W S = inr (ps, gts, rs)
    /\ exists covered,
         len sequence - S < covered <= len sequence
         /\ forall j, 0 <= j < covered ->
              exists k p, nth_error ps k = Some p
                          /\ p - W / 2 <= j < p - W / 2 + W.
Proof.
  intros HW [HS HSW] HN.
  pose proof (rows_enough sequence HN HS) as Hn.
  set (n := rows (len sequence) W S) in *.
  set (M := len sequence - W) in *.
  assert (Hq0 : 0 <= M / S) by (apply Z.div_pos; lia).
  assert (Hlo : S * (M / S) <= M) by (apply Z.mul_div_le; lia).
  assert (Hhi : M < S * Z.succ (M / S)) by (apply Z.mul_succ_div_gt; lia).
  eexists _, _, _. split; [now apply calculate_stats_ascending|].
  exists ((Z.of_nat n - 1) * S + W).
  split; [nia|].
  intros j Hj.
  assert (Hj0 : 0 <= j / S) by (apply Z.div_pos; lia).
  assert (Hjlo : S * (j / S) <= j) by (apply Z.mul_div_le; lia).
  assert (Hjhi : j < S * Z.succ (j / S)) by (apply Z.mul_succ_div_gt; lia).
  exists (Z.to_nat (Z.min (j / S) (Z.of_nat n - 1))).
  eexists. split.
  { apply (nth_map_multiples (position_at W)). fold n. lia. }
  unfold position_at.
  rewrite Z2Nat.id by lia.
  destruct (Z.min_spec (j / S) (Z.of_nat n - 1)) as [[Hlt ->]|[Hge ->]]; nia.
Qed.

Lemma windows_cover_sequence_witness :
  (1 <= 4 /\ 1 <= 2 <= 4 /\ len (list_ascii_of_string "GGTTAAGGT") >= 4)
  /\ exists ps gts rs,
       calculate_stats (list_ascii_of_string "GGTTAAGGT") 4 2
       = inr (ps, gts, rs)
       /\ exists covered,
            9 - 2 < covered <= 9
            /\ exists k p, nth_error ps k = Some p
                           /\ p - 4 / 2 <= 5 < p - 4 / 2 + 4.
Proof.
  assert (H : 1 <= 4 /\ 1 <= 2 <= 4
              /\ len (list_ascii_of_string "GGTTAAGGT") >= 4)
    by (vm_compute; intuition discriminate).
  split; [exact H|]. destruct H as (HW & HS & HN).
  destruct (windows_cover_sequence (list_ascii_of_string "GGTTAAGGT")
              HW HS HN)
    as (ps & gts & rs & Hrun & covered & Hcov & Hall).
  exists ps, gts, rs. split; [exact Hrun|].
  exists covered. split; [exact Hcov|].
  apply Hall. change (len (list_ascii_of_string "GGTTAAGGT")) with 9 in Hcov.
  lia.
Defined.

(** X5.  With a step larger than the window size and a sequence long
    enough for two windows, [calculate_stats] returns at least two rows
    and the symbol at index [W] lies in the window of none of them. *)
Theorem wide_step_skips_symbols (sequence : str) (W S : Z) :
  1 <= W -> W < S -> len sequence >= S + W ->
  exists ps gts rs,
    calculate_stats sequence W S = inr (ps, gts, rs)
    /\ (2 <= List.length ps)%nat
    /\ forall k p, nth_error ps k = Some p ->
         ~ (p - W / 2 <= W < p - W / 2 + W).
Proof.
  intros HW HS HN.
  assert (HN' : len sequence >= W) by lia.
  assert (HS1 : 1 <= S) by lia.
  pose proof (rows_enough sequence HN' HS1) as Hn.
  assert (1 <= (len sequence - W) / S)
    by (apply Z.div_le_lower_bound; lia).
  eexists _, _, _. split; [now apply calculate_stats_ascending|].
  split; [rewrite length_map, multiples_length; lia|].
  intros k p Hp. rewrite nth_error_map in Hp.
  destruct (nth_error _ k) as [i|] eqn:Hi; [|discriminate].
  apply multiples_nth_inv in Hi. destruct Hi as [_ Hi].
  cbn [option_map] in Hp. injection Hp as <-. unfold position_at.
  destruct k as [|k]; [lia|]. rewrite Nat2Z.inj_succ in Hi. nia.
Qed.

Lemma wide_step_skips_symbols_witness :
  (1 <= 2 /\ 2 < 3 /\ len (list_ascii_of_string "GGTTAAGG") >= 3 + 2)
  /\ exists ps gts rs,
       calculate_stats (list_ascii_of_string "GGTTAAGG") 2 3
       = inr (ps, gts, rs)
       /\ (2 <= List.length ps)%nat.
Proof.
  assert (H : 1 <= 2 /\ 2 < 3
              /\ len (list_ascii_of_string "GGTTAAGG") >= 3 + 2)
    by (vm_compute; intuition discriminate).
  split; [exact H|]. destruct H as (HW & HS & HN).
  destruct (wide_step_skips_symbols (list_ascii_of_string "GGTTAAGG")
              HW HS HN)
    as (ps & gts & rs & Hrun & Hlen & _).
  exists ps, gts, rs. split; [exact Hrun|exact Hlen].
Defined.

(** ** What the statistics depend on *)

Lemma slice_map {A B} (f : A -> B) (s : list A) (lo hi : Z) :
  slice (map f s) lo hi = map f (slice s lo hi).
Proof.
  unfold slice, len. rewrite length_map, skipn_map, firstn_map. reflexivity.
Qed.

Lemma count_map (f : ascii -> ascii) (c : ascii) (s : str) :
  (forall x, f x = c <-> x = c) -> count (map f s) c = count s c.
Proof.
  intros Hf. induction s as [|x rest IH]; [reflexivity|].
  cbn [map count]. rewrite IH.
  destruct (Ascii.eqb_spec (f x) c) as [E|E];
    destruct (Ascii.eqb_spec x c) as [E'|E']; try reflexivity.
  - apply (proj1 (Hf x)) in E. contradiction.
  - apply (proj2 (Hf x)) in E'. contradiction.
Qed.

Lemma for_each_ext {St} (body body' : St -> Z -> result St) items acc :
  (forall st i, body st i = body' st i) ->
  for_each body items acc = for_each body' items acc.
Proof.
  intros Hext. revert acc.
  induction items as [|i rest IH]; intros acc; [reflexivity|].
  cbn [for_each]. rewrite Hext.
  destruct (body' acc i) as [e|acc']; [reflexivity|]. apply IH.
Qed.

(** X6.  [calculate_stats] sees only which places hold [G] and which hold
    [T]: renaming the symbols by a map that sends exactly [G] to [G] and
    exactly [T] to [T] changes nothing, for any window size and step,
    exceptions included. *)
Theorem calculate_stats_symbol_blind (f : ascii -> ascii)
    (sequence : str) (W S : Z) :
  (forall x, f x = "G"%char <-> x = "G"%char) ->
  (forall x, f x = "T"%char <-> x = "T"%char) ->
  calculate_stats (map f sequence) W S = calculate_stats sequence W S.
Proof.
  intros HG HT. unfold calculate_stats, len. rewrite length_map.
  destruct (range 0 _ S) as [e|starts]; [reflexivity|]. cbn [bind].
  rewrite (@for_each_ext _ (window_stats (map f sequence) W)
             (window_stats sequence W)); [reflexivity|].
  intros st i. unfold window_stats.
  rewrite slice_map, !count_map by assumption. reflexivity.
Qed.

Lemma calculate_stats_symbol_blind_witness :
  calculate_stats
    (map (fun x => if Ascii.eqb x "A" then "N"%char else x)
         (list_ascii_of_string "GGTTAAGG")) 4 2
  = calculate_stats (list_ascii_of_string "GGTTAAGG") 4 2.
Proof.
  apply calculate_stats_symbol_blind;
    intros x; destruct (Ascii.eqb_spec x "A") as [->|_];
    split; intros H; try discriminate H; exact H || reflexivity.
Defined.

(** ** Extreme values of the two statistics *)

Lemma quotient_eq (x d c : Z) :
  0 < d -> ((inject_Z x / inject_Z d == inject_Z c)%Q <-> x = c * d).
Proof.
  intros Hd. destruct d as [|p|p]; try lia.
  unfold Qeq, Qdiv, Qmult, Qinv, inject_Z. simpl. lia.
Qed.

Lemma count_none (s : str) (c : ascii) :
  count s c = 0 <-> Forall (fun x => x <> c) s.
Proof.
  induction s as [|x rest IH]; cbn [count].
  - split; [constructor|reflexivity].
  - pose proof (count_nonneg rest c).
    destruct (Ascii.eqb_spec x c) as [E|E]; split.
    + lia.
    + intros H'. inversion H' as [|? ? Hx Hrest]. contradiction.
    + intros H'. constructor; [exact E|]. apply IH. lia.
    + intros H'. inversion H' as [|? ? Hx Hrest]. subst.
      apply IH in Hrest. lia.
Qed.

Lemma count_two_all (s : str) (c d : ascii) :
  c <> d ->
  (count s c + count s d = len s <-> Forall (fun x => x = c \/ x = d) s).
Proof.
  intros Hcd. unfold len.
  induction s as [|x rest IH]; cbn [count List.length].
  - split; [constructor|reflexivity].
  - pose proof (@count_two_le rest c d Hcd) as Hle. unfold len in Hle.
    rewrite Nat2Z.inj_succ.
    destruct (Ascii.eqb_spec x c) as [Ec|Ec];
      destruct (Ascii.eqb_spec x d) as [Ed|Ed];
      try (exfalso; congruence); split; intros H'.
    + constructor; [now left|]. apply IH. lia.
    + inversion H' as [|? ? Hx Hrest]; subst. apply IH in Hrest. lia.
    + constructor; [now right|]. apply IH. lia.
    + inversion H' as [|? ? Hx Hrest]; subst. apply IH in Hrest. lia.
    + lia.
    + inversion H' as [|? ? Hx Hrest]; subst. tauto.
Qed.

(** X7.  For [W >= 1] and [S >= 1] the fraction of a row is 1 exactly
    when every symbol of its window is [G] or [T], and 0 exactly when
    none is. *)
Theorem gt_total_extremes (sequence : str) (W S : Z) :
  1 <= W -> 1 <= S ->
  exists ps gts rs,
    calculate_stats sequence W S = inr (ps, gts, rs)
    /\ forall k, (k < rows (len sequence) W S)%nat ->
         let window := window_at sequence W (Z.of_nat k * S) in
         exists a,
           nth_error gts k = Some a
           /\ ((a == 1)%Q <->
               Forall (fun x => x = "G"%char \/ x = "T"%char) window)
           /\ ((a == 0)%Q <->
               Forall (fun x => x <> "G"%char /\ x <> "T"%char) window).
Proof.
  intros HW HS.
  eexists _, _, _. split; [now apply calculate_stats_ascending|].
  intros k Hk window.
  exists (gt_total_at sequence W (Z.of_nat k * S)).
  split; [now apply nth_map_multiples|].
  unfold gt_total_at. fold window.
  pose proof (window_length sequence HW HS Hk) as Hlen. fold window in Hlen.
  pose proof (count_nonneg window "G") as Hg.
  pose proof (count_nonneg window "T") as Ht.
  split.
  - change 1%Q with (inject_Z 1). rewrite quotient_eq by lia.
    rewrite <- (@count_two_all window "G" "T") by discriminate.
    rewrite Hlen. lia.
  - change 0%Q with (inject_Z 0). rewrite quotient_eq by lia.
    assert (Hboth :
      Forall (fun x => x <> "G"%char /\ x <> "T"%char) window
      <-> Forall (fun x => x <> "G"%char) window
          /\ Forall (fun x => x <> "T"%char) window).
    { rewrite !Forall_forall. firstorder. }
    rewrite Hboth, <- !count_none. lia.
Qed.

Lemma gt_total_extremes_witness :
  (1 <= 4 /\ 1 <= 2)
  /\ exists ps gts rs,
       calculate_stats (list_ascii_of_string "GGTTAAGG") 4 2
       = inr (ps, gts, rs)
       /\ exists a, nth_error gts 0 = Some a /\ (a == 1)%Q.
Proof.
  assert (H : 1 <= 4 /\ 1 <= 2) by lia.
  split; [exact H|]. destruct H as (HW & HS).
  destruct (gt_total_extremes (list_ascii_of_string "GGTTAAGG") HW HS)
    as (ps & gts & rs & Hrun & Hrows).
  exists ps, gts, rs. split; [exact Hrun|].
  destruct (Hrows 0%nat) as (a & Ha & Hone & _); [vm_compute; lia|].
  exists a. split; [exact Ha|]. apply Hone.
  change (Forall (fun x => x = "G"%char \/ x = "T"%char)
            (list_ascii_of_string "GGTT")).
  repeat (apply Forall_cons;
          [(left; reflexivity) || (right; reflexivity)|]).
  apply Forall_nil.
Defined.

(** X8.  For [W >= 1] and [S >= 1] the ratio of a row is 0 exactly when
    its window holds no [G] or no [T]: a window with [G] but without [T]
    is reported like a window without [G]. *)
Theorem g_t_ratio_zero_iff (sequence : str) (W S : Z) :
  1 <= W -> 1 <= S ->
  exists ps gts rs,
    calculate_stats sequence W S = inr (ps, gts, rs)
    /\ forall k, (k < rows (len sequence) W S)%nat ->
         let window := window_at sequence W (Z.of_nat k * S) in
         exists r,
           nth_error rs k = Some r
           /\ ((r == 0)%Q <->
               count window "G" = 0 \/ count window "T" = 0).
Proof.
  intros HW HS.
  eexists _, _, _. split; [now apply calculate_stats_ascending|].
  intros k Hk window.
  exists (g_t_ratio_at sequence W (Z.of_nat k * S)).
  split; [now apply nth_map_multiples|].
  unfold g_t_ratio_at. fold window.
  pose proof (count_nonneg window "T") as Ht.
  destruct (Z.ltb_spec 0 (count window "T")) as [Hpos|Hzero].
  - change 0%Q with (inject_Z 0). rewrite quotient_eq by lia. lia.
  - split; [intros _; right; lia|reflexivity].
Qed.

Lemma g_t_ratio_zero_iff_witness :
  (1 <= 4 /\ 1 <= 2)
  /\ exists ps gts rs,
       calculate_stats (list_ascii_of_string "GGTTAAGG") 4 2
       = inr (ps, gts, rs)
       /\ exists r, nth_error rs 2 = Some r /\ (r == 0)%Q.
Proof.
  assert (H : 1 <= 4 /\ 1 <= 2) by lia.
  split; [exact H|]. destruct H as (HW & HS).
  destruct (g_t_ratio_zero_iff (list_ascii_of_string "GGTTAAGG") HW HS)
    as (ps & gts & rs & Hrun & Hrows).
  exists ps, gts, rs. split; [exact Hrun|].
  destruct (Hrows 2%nat) as (r & Hr & Hzero); [vm_compute; lia|].
  exists r. split; [exact Hr|]. apply Hzero. right. reflexivity.
Defined.

(** ** The sequence loader *)

Lemma lstrip_length (s : str) : (List.length (lstrip s) <= List.length s)%nat.
Proof.
  induction s as [|x rest IH]; cbn [lstrip]; [lia|].
  destruct (isspace x); cbn [List.length]; lia.
Qed.

(** [lstrip] leaves a string alone exactly when it is empty or starts
    with a symbol that is not white space. *)
Lemma lstrip_fixed (s : str) :
  lstrip s = s <->
  match s with
  | [] => True
  | x :: _ => isspace x = false
  end.
Proof.
  destruct s as [|x rest]; cbn [lstrip]; [tauto|].
  destruct (isspace x) eqn:Hx; split; intros H;
    try reflexivity; try discriminate.
  pose proof (lstrip_length rest) as Hlen. rewrite H in Hlen.
  cbn [List.length] in Hlen. lia.
Qed.

Lemma lstrip_idempotent (s : str) : lstrip (lstrip s) = lstrip s.
Proof.
  induction s as [|x rest IH]; [reflexivity|]. cbn [lstrip].
  destruct (isspace x) eqn:Hx; [exact IH|].
  cbn [lstrip]. rewrite Hx. reflexivity.
Qed.

(** What [lstrip] removes is a prefix. *)
Lemma lstrip_suffix (s : str) : exists pre, s = pre ++ lstrip s.
Proof.
  induction s as [|x rest [pre IH]]; [exists []; reflexivity|].
  cbn [lstrip]. destruct (isspace x).
  - exists (x :: pre). cbn [app]. now rewrite <- IH.
  - exists []. reflexivity.
Qed.

Lemma lstrip_app (a b : str) :
  lstrip a = a -> a <> [] -> lstrip (a ++ b) = a ++ b.
Proof.
  intros Ha Hne. destruct a as [|x a']; [congruence|].
  apply lstrip_fixed in Ha. cbn [app lstrip]. rewrite Ha. reflexivity.
Qed.

Lemma trimmed_nil : trimmed [].
Proof. split; reflexivity. Qed.

Lemma trimmed_app (a b : str) : trimmed a -> trimmed b -> trimmed (a ++ b).
Proof.
  intros [Ha Ha'] [Hb Hb']. split.
  - destruct a as [|x a']; [exact Hb|]. now apply lstrip_app.
  - rewrite rev_app_distr.
    destruct b as [|y b']; [cbn [rev app]; exact Ha'|].
    apply lstrip_app; [exact Hb'|].
    intros E. apply (f_equal (@List.length ascii)) in E.
    rewrite length_rev in E. discriminate E.
Qed.

Lemma trimmed_strip (s : str) : trimmed (strip s).
Proof.
  unfold strip, rstrip, trimmed.
  set (y := lstrip s). set (z := lstrip (rev y)).
  rewrite rev_involutive. split; [|apply lstrip_idempotent].
  destruct (lstrip_suffix (rev y)) as [pre Hpre]. fold z in Hpre.
  apply (f_equal (@rev ascii)) in Hpre.
  rewrite rev_involutive, rev_app_distr in Hpre.
  pose proof (lstrip_idempotent s) as Hy. fold y in Hy.
  apply lstrip_fixed. apply lstrip_fixed in Hy. rewrite Hpre in Hy.
  destruct (rev z) as [|x t]; [exact I|exact Hy].
Qed.

Lemma trimmed_concat (chunks : list str) :
  Forall trimmed chunks -> trimmed (List.concat chunks).
Proof.
  induction 1 as [|c rest Hc _ IH]; [apply trimmed_nil|].
  cbn [List.concat]. now apply trimmed_app.
Qed.

Lemma strip_trimmed (s : str) : trimmed s -> strip s = s.
Proof.
  intros [H1 H2]. unfold strip, rstrip.
  rewrite H1, H2. apply rev_involutive.
Qed.

(** A trimmed chunk followed by a line feed is stripped back to the
    chunk. *)
Lemma strip_line (c : str) : trimmed c -> strip (c ++ [newline]) = c.
Proof.
  intros [H1 H2]. unfold strip, rstrip.
  assert (Hl : lstrip (c ++ [newline]) = c ++ [newline] \/ c = []).
  { destruct c as [|x c']; [now right|left]. now apply lstrip_app. }
  destruct Hl as [Hl| ->]; [|reflexivity].
  rewrite Hl, rev_app_distr. cbn [rev app lstrip].
  change (isspace newline) with true. cbv iota.
  rewrite H2. apply rev_involutive.
Qed.

Lemma is_sequence_line_line (c : str) :
  is_sequence_line c = true -> is_sequence_line (c ++ [newline]) = true.
Proof.
  destruct c as [|x c']; [reflexivity|]. intros H. exact H.
Qed.

Lemma space_is_no_marker (w : ascii) (rest : str) :
  isspace w = true -> is_sequence_line (w :: rest) = true.
Proof.
  intros Hw. unfold is_sequence_line, startswith.
  destruct (Ascii.eqb_spec w ">") as [->|_]; [discriminate Hw|].
  destruct (Ascii.eqb_spec w "@") as [->|_]; [discriminate Hw|].
  destruct (Ascii.eqb_spec w "+") as [->|_]; [discriminate Hw|].
  reflexivity.
Qed.

(** The sequence that a list of lines yields. *)
Lemma read_lines (fs : filesystem) (p : string) (lines : list str) :
  fs p = Some lines ->
  read_sequence_file fs p
  = inr (List.concat (map strip (filter is_sequence_line lines))).
Proof. intros H. unfold read_sequence_file. rewrite H. reflexivity. Qed.



(** X10.  A line that starts with [>], [@] or [+] contributes nothing,
    wherever it stands: the file with the line and the file without it
    yield the same sequence. *)
Theorem read_sequence_file_drops_markers (fs : filesystem)
    (p q : string) (before after : list str) (marked : str) :
  startswith marked ">" = true \/ startswith marked "@" = true
  \/ startswith marked "+" = true ->
  fs p = Some (before ++ marked :: after) ->
  fs q = Some (before ++ after) ->
  read_sequence_file fs p = read_sequence_file fs q.
Proof.
  intros Hmark Hp Hq.
  rewrite (read_lines fs p Hp), (read_lines fs q Hq).
  rewrite !filter_app. cbn [filter].
  assert (Hdrop : is_sequence_line marked = false).
  { unfold is_sequence_line.
    destruct Hmark as [-> |[-> | ->]]; cbn [negb andb];
      rewrite ?andb_false_r; reflexivity. }
  rewrite Hdrop. reflexivity.
Qed.

Lemma read_sequence_file_drops_markers_witness :
  read_sequence_file
    (fun q => if String.eqb q "quality.fq"
              then Some ([list_ascii_of_string "GGTT"]
                         ++ list_ascii_of_string "@IIII"
                            :: [list_ascii_of_string "AA"])
              else if String.eqb q "plain.fq"
              then Some ([list_ascii_of_string "GGTT"]
                         ++ [list_ascii_of_string "AA"])
              else None) "quality.fq"
  = read_sequence_file
      (fun q => if String.eqb q "quality.fq"
                then Some ([list_ascii_of_string "GGTT"]
                           ++ list_ascii_of_string "@IIII"
                              :: [list_ascii_of_string "AA"])
                else if String.eqb q "plain.fq"
                then Some ([list_ascii_of_string "GGTT"]
                           ++ [list_ascii_of_string "AA"])
                else None) "plain.fq".
Proof.
  apply (@read_sequence_file_drops_markers _ "quality.fq" "plain.fq"
           [list_ascii_of_string "GGTT"] [list_ascii_of_string "AA"]
           (list_ascii_of_string "@IIII")).
  - right. left. reflexivity.
  - reflexivity.
  - reflexivity.
Defined.

(** X11.  Reading back what was written: a file made of one header line
    and of chunks written one per line, each followed by a line feed,
    yields the chunks joined together, provided no chunk starts or ends
    with white space or starts with one of the three markers. *)
Theorem read_sequence_file_round_trip (fs : filesystem) (p : string)
    (header : str) (chunks : list str) :
  startswith header ">" = true ->
  Forall (fun c => trimmed c /\ is_sequence_line c = true) chunks ->
  fs p = Some (header :: map (fun c => c ++ [newline]) chunks) ->
  read_sequence_file fs p = inr (List.concat chunks).
Proof.
  intros Hheader Hchunks Hp.
  rewrite (read_lines fs p Hp). cbn [filter].
  assert (Hdrop : is_sequence_line header = false).
  { unfold is_sequence_line. rewrite Hheader. reflexivity. }
  rewrite Hdrop.
  assert (Hback : map strip (filter is_sequence_line
                               (map (fun c => c ++ [newline]) chunks))
                  = chunks).
  { clear Hp. induction Hchunks as [|c rest [Hc Hline] _ IH];
      [reflexivity|].
    cbn [map filter]. rewrite (is_sequence_line_line c Hline).
    cbn [map]. rewrite (strip_line Hc), IH. reflexivity. }
  rewrite Hback. reflexivity.
Qed.

Lemma read_sequence_file_round_trip_witness :
  read_sequence_file
    (fun q => if String.eqb q "two.fa"
              then Some (list_ascii_of_string ">chr"
                         :: map (fun c => c ++ [newline])
                              [list_ascii_of_string "GGTT";
                               list_ascii_of_string "AAG"])
              else None) "two.fa"
  = inr (list_ascii_of_string "GGTTAAG").
Proof.
  apply (@read_sequence_file_round_trip _ "two.fa"
           (list_ascii_of_string ">chr")
           [list_ascii_of_string "GGTT"; list_ascii_of_string "AAG"]).
  - reflexivity.
  - repeat constructor.
  - reflexivity.
Defined.

(** X12.  The markers are looked for before the line is stripped: a line
    that starts with white space is kept, stripped, whatever follows the
    white space, a marker included. *)
Theorem read_sequence_file_indented_line (fs : filesystem)
    (p p1 p2 : string) (before after : list str) (w : ascii) (rest : str) :
  isspace w = true ->
  fs p1 = Some before -> fs p2 = Some after ->
  fs p = Some (before ++ (w :: rest) :: after) ->
  exists s1 s2,
    read_sequence_file fs p1 = inr s1
    /\ read_sequence_file fs p2 = inr s2
    /\ read_sequence_file fs p = inr (s1 ++ strip rest ++ s2).
Proof.
  intros Hw H1 H2 H.
  rewrite (read_lines fs p1 H1), (read_lines fs p2 H2), (read_lines fs p H).
  eexists _, _. split; [reflexivity|]. split; [reflexivity|].
  rewrite filter_app. cbn [filter].
  rewrite (@space_is_no_marker w rest Hw).
  rewrite map_app, concat_app. cbn [map List.concat].
  unfold strip at 2. cbn [lstrip]. rewrite Hw. reflexivity.
Qed.

Lemma read_sequence_file_indented_line_witness :
  exists s1 s2,
    read_sequence_file
      (fun q => if String.eqb q "indented.fa"
                then Some ([] ++ (" "%char :: list_ascii_of_string ">chr")
                              :: [])
                else Some []) "none.fa" = inr s1
    /\ read_sequence_file
         (fun q => if String.eqb q "indented.fa"
                   then Some ([] ++ (" "%char :: list_ascii_of_string ">chr")
                                 :: [])
                   else Some []) "none.fa" = inr s2
    /\ read_sequence_file
         (fun q => if String.eqb q "indented.fa"
                   then Some ([] ++ (" "%char :: list_ascii_of_string ">chr")
                                 :: [])
                   else Some []) "indented.fa"
       = inr (s1 ++ strip (list_ascii_of_string ">chr") ++ s2).
Proof.
  apply (@read_sequence_file_indented_line _ "indented.fa" "none.fa"
           "none.fa" [] [] " "%char (list_ascii_of_string ">chr"));
    reflexivity.
Defined.

(** X13.  The sequence that [read_sequence_file] returns neither starts
    nor ends with white space: stripping it changes nothing. *)
Theorem read_sequence_file_trimmed (fs : filesystem) (p : string)
    (sequence : str) :
  read_sequence_file fs p = inr sequence ->
  strip sequence = sequence
  /\ (forall x, hd_error sequence = Some x -> isspace x = false)
  /\ (forall x, hd_error (rev sequence) = Some x -> isspace x = false).
Proof.
  intros Hread. unfold read_sequence_file in Hread.
  destruct (fs p) as [lines|]; [|discriminate].
  injection Hread as <-.
  assert (Ht : trimmed (List.concat
                          (map strip (filter is_sequence_line lines)))).
  { apply trimmed_concat, Forall_forall. intros c Hc.
    apply in_map_iff in Hc. destruct Hc as (l & <- & _).
    apply trimmed_strip. }
  split; [now apply strip_trimmed|].
  destruct Ht as [H1 H2]. apply lstrip_fixed in H1, H2.
  split; intros x Hx.
  - destruct (List.concat _) as [|y t]; [discriminate|].
    injection Hx as <-. exact H1.
  - destruct (rev _) as [|y t]; [discriminate|].
    injection Hx as <-. exact H2.
Qed.

Lemma read_sequence_file_trimmed_witness :
  read_sequence_file example_fs "chrIX.fa"
  = inr (list_ascii_of_string "GGTTAAGGTT")
  /\ strip (list_ascii_of_string "GGTTAAGGTT")
     = list_ascii_of_string "GGTTAAGGTT".
Proof.
  assert (H : read_sequence_file example_fs "chrIX.fa"
              = inr (list_ascii_of_string "GGTTAAGGTT")) by reflexivity.
  split; [exact H|].
  exact (proj1 (read_sequence_file_trimmed example_fs "chrIX.fa" H)).
Defined.

(** ** The runs of [main] *)

Lemma validation_total (fs : filesystem) (a : args) :
  validation_failure fs a \/ exists whole, accepted fs a whole.
Proof.
  destruct (fs (file a)) as [lines|] eqn:Hfs;
    [|left; now apply missing_file].
  pose proof (read_lines fs (file a) Hfs) as Hread.
  set (whole := List.concat _) in Hread.
  destruct (Z_le_gt_dec (step a) (window a)) as [Hstep|Hstep];
    [|left; now apply step_exceeds_window].
  destruct (Z_lt_le_dec (start_pos a) 0) as [Hneg|H0];
    [left; now apply negative_start|].
  destruct (Z_le_gt_dec (end_pos a whole) (len whole)) as [Hend|Hend];
    [|left; now apply (end_beyond_sequence fs a Hread)].
  destruct (Z_lt_le_dec (start_pos a) (end_pos a whole)) as [Hord|Hord];
    [|left; apply (start_not_before_end fs a Hread); lia].
  right. exists whole. repeat split; assumption.
Qed.

Lemma accepted_no_failure (fs : filesystem) (a : args) (whole : str) :
  accepted fs a whole -> ~ validation_failure fs a.
Proof.
  intros (Hread & Hstep & H0 & Hend & Hord) Hfail.
  destruct Hfail as [Hnone|Hgt|Hneg|s' Hs' Hbeyond|s' Hs' Hnot]; try lia.
  - unfold read_sequence_file in Hread. rewrite Hnone in Hread.
    discriminate.
  - assert (s' = whole) by congruence. subst. lia.
  - assert (s' = whole) by congruence. subst. lia.
Qed.

(** An accepted run is the call of the engine on the trimmed sequence and,
    unless the engine raises, the report of what it returned. *)
Lemma main_accepted (fs : filesystem) (a : args) (whole : str) :
  accepted fs a whole ->
  let trimmed := slice whole (start_pos a) (end_pos a whole) in
  main fs a =
  match calculate_stats trimmed (window a) (step a) with
  | inl e => ([CallStats trimmed (window a) (step a)], Uncaught e)
  | inr (ps, gts, rs) =>
    (success_events a trimmed
       (output_stem a (start_pos a) (end_pos a whole))
       (map (fun p => p + start_pos a) ps, gts, rs),
     Completed)
  end.
Proof.
  intros (Hread & Hstep & H0 & Hend & Hord) trimmed.
  rewrite (main_validated fs a Hread Hstep H0 Hend Hord). reflexivity.
Qed.

(** Under the check [step <= window] the engine can only raise for a
    step of 0. *)
Lemma engine_after_validation (sequence : str) (W S : Z) :
  S <= W ->
  (S = 0 /\ calculate_stats sequence W S = inl ValueError)
  \/ (S <> 0 /\ exists ps gts rs,
                  calculate_stats sequence W S = inr (ps, gts, rs)).
Proof.
  intros HSW.
  destruct (calculate_stats_cases sequence W S)
    as [(HS & Hr)|[(HS & HW & Hr)|[(HS & HW & Hr)|(HS & HW & starts & _ & Hr)]]].
  - left. split; assumption.
  - lia.
  - right. split; [lia|]. eexists _, _, _. exact Hr.
  - right. split; [exact HS|]. eexists _, _, _. exact Hr.
Qed.

(** The three shapes of a run. *)
Lemma main_shapes (fs : filesystem) (a : args) :
  (validation_failure fs a
   /\ exists msg, main fs a = ([PrintErr msg], SysExit 1))
  \/ (exists whole,
        accepted fs a whole /\ step a = 0
        /\ main fs a =
           ([CallStats (slice whole (start_pos a) (end_pos a whole))
                       (window a) (step a)],
            Uncaught ValueError))
  \/ (exists whole ps gts rs,
        accepted fs a whole /\ step a <> 0
        /\ calculate_stats (slice whole (start_pos a) (end_pos a whole))
                           (window a) (step a) = inr (ps, gts, rs)
        /\ main fs a =
           (success_events a
              (slice whole (start_pos a) (end_pos a whole))
              (output_stem a (start_pos a) (end_pos a whole))
              (map (fun p => p + start_pos a) ps, gts, rs),
            Completed)).
Proof.
  destruct (validation_total fs a) as [Hfail|[whole Hok]].
  { left. split; [exact Hfail|].
    destruct (main_rejects Hfail) as (msg & Hrun & _). now exists msg. }
  right. pose proof (main_accepted Hok) as Hrun. cbv zeta in Hrun.
  assert (Hstep : step a <= window a) by apply Hok.
  destruct (engine_after_validation
              (slice whole (start_pos a) (end_pos a whole)) Hstep)
    as [(HS & Hr)|(HS & ps & gts & rs & Hr)]; rewrite Hr in Hrun.
  - left. exists whole. split; [exact Hok|]. split; [exact HS|exact Hrun].
  - right. exists whole, ps, gts, rs.
    split; [exact Hok|]. split; [exact HS|]. split; [exact Hr|exact Hrun].
Qed.

(** X14.  The exit status is 0 exactly when the file exists, the step is
    not above the window size, the converted range satisfies
    [0 <= start < end <= length], and the step is not 0. *)
Theorem main_exit_status_zero (fs : filesystem) (a : args) :
  exit_status (snd (main fs a)) = 0
  <-> (exists whole, accepted fs a whole) /\ step a <> 0.
Proof.
  destruct (main_shapes fs a)
    as [(Hfail & msg & Hrun)
       |[(whole & Hok & HS & Hrun)
        |(whole & ps & gts & rs & Hok & HS & _ & Hrun)]];
    rewrite Hrun; cbn [snd exit_status]; split; try discriminate.
  - intros [[whole Hok] _].
    exfalso. exact (accepted_no_failure Hok Hfail).
  - intros [_ HS']. contradiction.
  - intros _. split; [now exists whole|exact HS].
  - reflexivity.
Qed.


(** X16.  The CSV file and the plot are written together or not at all:
    a file is written exactly when the run completes, and a run that
    completes consists of the call of the engine, the CSV file and the
    plot with the same table and the same name up to the extension, and
    the three lines on standard output. *)
Theorem main_output_all_or_nothing (fs : filesystem) (a : args) :
  (writes_output (main fs a) <-> snd (main fs a) = Completed)
  /\ (snd (main fs a) = Completed ->
      exists sequence stem table,
        fst (main fs a) = success_events a sequence stem table).
Proof.
  destruct (main_shapes fs a)
    as [(Hfail & msg & Hrun)
       |[(whole & Hok & HS & Hrun)
        |(whole & ps & gts & rs & Hok & HS & _ & Hrun)]];
    rewrite Hrun; cbn [snd fst].
  - split; [split|]; try discriminate.
    intros (name & table & [[H|[]]|[H|[]]]); discriminate H.
  - split; [split|]; try discriminate.
    intros (name & table & [[H|[]]|[H|[]]]); discriminate H.
  - split; [split|].
    + reflexivity.
    + intros _. eexists _, _. left. right. left. reflexivity.
    + intros _. eexists _, _, _. reflexivity.
Qed.

Lemma slice_whole {A} (s : list A) : slice s 0 (len s) = s.
Proof.
  unfold slice, adjust_index, len.
  destruct (Z.ltb_spec (Z.of_nat (List.length s)) 0); [lia|].
  cbn [Z.ltb Z.compare]. rewrite Z.min_id.
  replace (Z.min 0 (Z.of_nat (List.length s))) with 0 by lia.
  rewrite Z.sub_0_r, Nat2Z.id. cbn [Z.to_nat skipn]. apply firstn_all.
Qed.

Lemma map_plus_zero (l : list Z) : map (fun p => p + 0) l = l.
Proof.
  induction l as [|x rest IH]; [reflexivity|].
  cbn [map]. rewrite Z.add_0_r, IH. reflexivity.
Qed.

(** X17.  Without [--start] and [--end], on a file whose sequence is not
    empty and with a step not above the window size, the engine receives
    the whole sequence, the positions are written as the engine returned
    them, and the file names carry the range from 1 to the length of
    the sequence. *)
Theorem main_default_range (fs : filesystem) (a : args) (whole : str) :
  read_sequence_file fs (file a) = inr whole -> whole <> [] ->
  step a <= window a ->
  start a = None -> end_ a = None ->
  main fs a =
  match calculate_stats whole (window a) (step a) with
  | inl e => ([CallStats whole (window a) (step a)], Uncaught e)
  | inr (ps, gts, rs) =>
    (success_events a whole (output_stem a 0 (len whole)) (ps, gts, rs),
     Completed)
  end.
Proof.
  intros Hread Hne Hstep Hstart Hend.
  assert (Hsp : start_pos a = 0) by (unfold start_pos; now rewrite Hstart).
  assert (Hep : end_pos a whole = len whole)
    by (unfold end_pos; now rewrite Hend).
  assert (Hlen : 0 < len whole).
  { destruct whole; [congruence|]. unfold len. cbn [List.length]. lia. }
  assert (Hok : accepted fs a whole).
  { unfold accepted. rewrite Hsp, Hep. repeat split; try assumption; lia. }
  rewrite (main_accepted Hok). cbv zeta.
  rewrite Hsp, Hep, slice_whole.
  destruct (calculate_stats whole (window a) (step a)) as [e|[[ps gts] rs]];
    [reflexivity|].
  rewrite map_plus_zero. reflexivity.
Qed.

Lemma main_default_range_witness :
  main example_fs (mkArgs "chrIX.fa" 4 3 None None)
  = (success_events (mkArgs "chrIX.fa" 4 3 None None)
       (list_ascii_of_string "GGTTAAGGTT") "window4-step3-pos1-10"
       ([2; 5; 8], [4 # 4; 2 # 4; 4 # 4]%Q, [2 # 2; 1 # 1; 2 # 2]%Q),
     Completed).
Proof.
  exact (@main_default_range example_fs (mkArgs "chrIX.fa" 4 3 None None)
           (list_ascii_of_string "GGTTAAGGTT") eq_refl
           ltac:(discriminate) ltac:(cbn; lia) eq_refl eq_refl).
Defined.

(** ** The table that [main] writes *)

Lemma slice_inside {A} (s : list A) (lo hi : Z) :
  0 <= lo -> lo <= hi -> hi <= len s ->
  slice s lo hi = firstn (Z.to_nat (hi - lo)) (skipn (Z.to_nat lo) s).
Proof.
  intros H0 H1 H2. unfold slice, adjust_index. unfold len in *.
  destruct (Z.ltb_spec lo 0); [lia|].
  destruct (Z.ltb_spec hi 0); [lia|].
  rewrite !Z.min_l by lia. reflexivity.
Qed.

(** A window of a trimmed sequence is a window of the whole one. *)
Lemma window_of_slice (s : str) (lo hi W i : Z) :
  0 <= lo -> hi <= len s -> 0 <= W -> 0 <= i -> i + W <= hi - lo ->
  window_at (slice s lo hi) W i = window_at s W (lo + i).
Proof.
  intros H0 H1 HW Hi HiW. unfold window_at.
  assert (Hlen : len (slice s lo hi) = hi - lo)
    by (apply slice_length; lia).
  rewrite (@slice_inside _ (slice s lo hi)) by lia.
  rewrite (@slice_inside _ s lo hi) by lia.
  rewrite (@slice_inside _ s (lo + i)) by lia.
  rewrite skipn_firstn_comm, firstn_firstn, skipn_skipn.
  f_equal; [lia|]. f_equal. lia.
Qed.

Lemma multiples_In_inv (S i : Z) (n : nat) :
  In i (multiples S n) -> exists k, (k < n)%nat /\ i = Z.of_nat k * S.
Proof.
  unfold multiples. rewrite in_map_iff. intros (k & <- & Hk).
  apply in_seq in Hk. exists k. split; [lia|reflexivity].
Qed.

(** X18.  When the window size and the step are at least 1, every
    position of a table that [main] writes lies in the selected 0-based
    range [[start_pos, end_pos)], at least [W / 2] after its start and
    at least [W - W / 2] before its end. *)
Theorem main_positions_in_range (fs : filesystem) (a : args)
    (name : string) (ps : list Z) (gts rs : list Q) :
  1 <= window a -> 1 <= step a ->
  In (ToCsv name (ps, gts, rs)) (fst (main fs a)) ->
  exists whole,
    accepted fs a whole
    /\ forall p, In p ps ->
         start_pos a + window a / 2 <= p
         /\ p <= end_pos a whole - window a + window a / 2
         /\ start_pos a <= p < end_pos a whole.
Proof.
  intros HW HS Hin.
  destruct (main_shapes fs a)
    as [(Hfail & msg & Hrun)
       |[(whole & Hok & HS0 & Hrun)
        |(whole & ps0 & gts0 & rs0 & Hok & _ & Hr & Hrun)]];
    rewrite Hrun in Hin; cbn [fst success_events In] in Hin.
  - destruct Hin as [H|[]]. discriminate H.
  - destruct Hin as [H|[]]. discriminate H.
  - exists whole. split; [exact Hok|].
    destruct Hin as [H|[H|[H|[H|[H|[H|[]]]]]]]; try discriminate H.
    injection H as _ <- _ _.
    destruct Hok as (_ & _ & H0 & Hend & Hord).
    set (trimmed := slice whole (start_pos a) (end_pos a whole)) in *.
    assert (Hlen : len trimmed = end_pos a whole - start_pos a)
      by (apply slice_length; lia).
    rewrite (calculate_stats_ascending trimmed HW HS) in Hr.
    injection Hr as <- _ _.
    intros p Hp.
    apply in_map_iff in Hp. destruct Hp as (q & <- & Hq).
    apply in_map_iff in Hq. destruct Hq as (i & <- & Hi).
    apply multiples_In_inv in Hi. destruct Hi as (k & Hk & ->).
    destruct (start_in_range trimmed (window a) HS Hk) as [Hi0 HiN].
    rewrite Hlen in HiN. unfold position_at.
    assert (0 <= window a / 2 < window a).
    { split; [apply Z.div_pos; lia|apply Z.div_lt_upper_bound; lia]. }
    lia.
Qed.

Lemma main_positions_in_range_witness :
  (1 <= 2 /\ 1 <= 1)
  /\ exists whole,
       accepted example_fs (mkArgs "chrIX.fa" 2 1 (Some 3) (Some 7)) whole
       /\ 2 <= 3 < 7.
Proof.
  assert (H : 1 <= 2 /\ 1 <= 1) by lia.
  split; [exact H|]. destruct H as (HW & HS).
  destruct (@main_positions_in_range example_fs
              (mkArgs "chrIX.fa" 2 1 (Some 3) (Some 7))
              "window2-step1-pos3-7.csv" [3; 4; 5; 6]
              [2 # 2; 1 # 2; 0 # 2; 1 # 2]%Q [0 # 2; 0 # 1; 0; 0]%Q
              HW HS)
    as (whole & Hok & Hall).
  - right. left. reflexivity.
  - exists whole. split; [exact Hok|].
    apply (Hall 3). left. reflexivity.
Defined.

(** X19.  When the selected range is shorter than the window size (and
    the step is at least 1), an accepted run completes with exit status 0
    and writes a CSV file and a plot with no row. *)
Theorem main_window_larger_than_range (fs : filesystem) (a : args)
    (whole : str) :
  accepted fs a whole -> 1 <= step a ->
  end_pos a whole - start_pos a < window a ->
  main fs a =
  (success_events a (slice whole (start_pos a) (end_pos a whole))
     (output_stem a (start_pos a) (end_pos a whole)) ([], [], []),
   Completed)
  /\ exit_status (snd (main fs a)) = 0.
Proof.
  intros Hok HS Hshort.
  assert (Hrun : main fs a =
    (success_events a (slice whole (start_pos a) (end_pos a whole))
       (output_stem a (start_pos a) (end_pos a whole)) ([], [], []),
     Completed)).
  { rewrite (main_accepted Hok). cbv zeta.
    destruct Hok as (_ & _ & H0 & Hend & Hord).
    set (trimmed := slice whole (start_pos a) (end_pos a whole)).
    assert (Hlen : len trimmed = end_pos a whole - start_pos a)
      by (apply slice_length; lia).
    rewrite calculate_stats_ascending by lia.
    rewrite rows_short by lia. reflexivity. }
  split; [exact Hrun|]. rewrite Hrun. reflexivity.
Qed.

Lemma main_window_larger_than_range_witness :
  (accepted example_fs (mkArgs "chrIX.fa" 25 4 (Some 3) (Some 7))
     (list_ascii_of_string "GGTTAAGGTT")
   /\ 1 <= 4 /\ 7 - 2 < 25)
  /\ main example_fs (mkArgs "chrIX.fa" 25 4 (Some 3) (Some 7))
     = (success_events (mkArgs "chrIX.fa" 25 4 (Some 3) (Some 7))
          (list_ascii_of_string "TTAAG") "window25-step4-pos3-7"
          ([], [], []),
        Completed).
Proof.
  assert (H : accepted example_fs (mkArgs "chrIX.fa" 25 4 (Some 3) (Some 7))
                (list_ascii_of_string "GGTTAAGGTT")
              /\ 1 <= 4 /\ 7 - 2 < 25).
  { split; [|lia]. unfold accepted.
    split; [reflexivity|]. cbn. lia. }
  split; [exact H|]. destruct H as (Hok & HS & Hshort).
  exact (proj1 (main_window_larger_than_range Hok HS Hshort)).
Defined.

(** X20.  Each row of the table of an accepted run (window size and step
    at least 1) describes a window of the sequence read from the file:
    row [k] belongs to the window that starts at [start_pos + k * S] of
    that sequence, lies inside the selected range, has that window's
    midpoint as position and that window's fraction and ratio. *)
Theorem main_rows_describe_windows (fs : filesystem) (a : args)
    (whole : str) :
  accepted fs a whole -> 1 <= window a -> 1 <= step a ->
  let W := window a in
  let S := step a in
  let n := rows (end_pos a whole - start_pos a) W S in
  exists ps gts rs,
    main fs a =
    (success_events a (slice whole (start_pos a) (end_pos a whole))
       (output_stem a (start_pos a) (end_pos a whole)) (ps, gts, rs),
     Completed)
    /\ List.length ps = n
    /\ forall k, (k < n)%nat ->
         let i := start_pos a + Z.of_nat k * S in
         start_pos a <= i /\ i + W <= end_pos a whole
         /\ nth_error ps k = Some (i + W / 2)
         /\ nth_error gts k = Some (gt_total_at whole W i)
         /\ nth_error rs k = Some (g_t_ratio_at whole W i).
Proof.
  intros Hok HW HS W S n.
  rewrite (main_accepted Hok). cbv zeta.
  destruct Hok as (_ & _ & H0 & Hend & Hord).
  set (trimmed := slice whole (start_pos a) (end_pos a whole)).
  assert (Hlen : len trimmed = end_pos a whole - start_pos a)
    by (apply slice_length; lia).
  rewrite calculate_stats_ascending by assumption.
  rewrite Hlen. fold W S n.
  eexists _, _, _. split; [reflexivity|].
  split; [now rewrite !length_map, multiples_length|].
  intros k Hk. set (i := start_pos a + Z.of_nat k * S).
  assert (Hroom : 0 <= Z.of_nat k * S /\ Z.of_nat k * S + W <= len trimmed).
  { apply start_in_range; [exact HS|]. rewrite Hlen. exact Hk. }
  rewrite Hlen in Hroom.
  assert (Hwin : window_at trimmed W (Z.of_nat k * S) = window_at whole W i).
  { apply window_of_slice; lia. }
  split; [lia|]. split; [lia|].
  split.
  { rewrite nth_error_map, (nth_map_multiples (position_at W) S Hk).
    cbn [option_map]. unfold position_at, i. f_equal. lia. }
  split.
  - rewrite (nth_map_multiples (gt_total_at trimmed W) S Hk).
    unfold gt_total_at. cbv zeta. rewrite Hwin. reflexivity.
  - rewrite (nth_map_multiples (g_t_ratio_at trimmed W) S Hk).
    unfold g_t_ratio_at. cbv zeta. rewrite Hwin. reflexivity.
Qed.

Lemma main_rows_describe_windows_witness :
  (accepted example_fs (mkArgs "chrIX.fa" 2 1 (Some 3) (Some 7))
     (list_ascii_of_string "GGTTAAGGTT")
   /\ 1 <= 2 /\ 1 <= 1)
  /\ exists ps gts rs,
       main example_fs (mkArgs "chrIX.fa" 2 1 (Some 3) (Some 7))
       = (success_events (mkArgs "chrIX.fa" 2 1 (Some 3) (Some 7))
            (list_ascii_of_string "TTAAG") "window2-step1-pos3-7"
            (ps, gts, rs),
          Completed)
       /\ nth_error ps 3 = Some 6
       /\ nth_error gts 3
          = Some (gt_total_at (list_ascii_of_string "GGTTAAGGTT") 2 5).
Proof.
  assert (H : accepted example_fs (mkArgs "chrIX.fa" 2 1 (Some 3) (Some 7))
                (list_ascii_of_string "GGTTAAGGTT")
              /\ 1 <= 2 /\ 1 <= 1).
  { split; [|lia]. unfold accepted.
    split; [reflexivity|]. cbn. lia. }
  split; [exact H|]. destruct H as (Hok & HW & HS).
  destruct (main_rows_describe_windows Hok HW HS)
    as (ps & gts & rs & Hrun & Hlen & Hrows).
  exists ps, gts, rs. split; [exact Hrun|].
  destruct (Hrows 3%nat) as (_ & _ & Hp & Hg & _); [vm_compute; lia|].
  split; [exact Hp|exact Hg].
Defined.

(** ** Longer sequences *)

Lemma window_of_app (s extra : str) (W i : Z) :
  0 <= W -> 0 <= i -> i + W <= len s ->
  window_at (s ++ extra) W i = window_at s W i.
Proof.
  intros HW Hi HiW. unfold window_at.
  assert (Hlen : len (s ++ extra) = len s + len extra)
    by (unfold len; rewrite length_app; lia).
  pose proof (len_nonneg extra).
  rewrite (@slice_inside _ (s ++ extra)) by lia.
  rewrite (@slice_inside _ s) by lia.
  rewrite skipn_app, firstn_app, length_skipn.
  unfold len in HiW.
  replace (Z.to_nat (i + W - i) - (List.length s - Z.to_nat i))%nat
    with 0%nat by lia.
  cbn [firstn]. apply app_nil_r.
Qed.

Lemma rows_monotone (N N' W S : Z) :
  1 <= S -> N <= N' -> (rows N W S <= rows N' W S)%nat.
Proof.
  intros HS HN. unfold rows, range_length.
  destruct (Z.ltb_spec 0 (N - W + 1)); destruct (Z.ltb_spec 0 (N' - W + 1));
    try lia.
  assert ((N - W + 1 - 0 - 1) / S <= (N' - W + 1 - 0 - 1) / S)
    by (apply Z.div_le_mono; lia).
  lia.
Qed.

Lemma multiples_split (S : Z) (n m : nat) :
  multiples S (n + m)
  = multiples S n ++ map (fun k => Z.of_nat k * S) (seq n m).
Proof. unfold multiples. rewrite seq_app, map_app. reflexivity. Qed.

(** X21.  Appending symbols to a sequence keeps every row and only adds
    rows after them (window size and step at least 1). *)
Theorem calculate_stats_extension (sequence extra : str) (W S : Z) :
  1 <= W -> 1 <= S ->
  exists ps gts rs ps' gts' rs',
    calculate_stats sequence W S = inr (ps, gts, rs)
    /\ calculate_stats (sequence ++ extra) W S
       = inr (ps ++ ps', gts ++ gts', rs ++ rs').
Proof.
  intros HW HS.
  set (n := rows (len sequence) W S).
  set (n' := rows (len (sequence ++ extra)) W S).
  assert (Hle : (n <= n')%nat).
  { apply rows_monotone; [exact HS|].
    unfold len. rewrite length_app. lia. }
  assert (Hsame : forall i, In i (multiples S n) ->
            window_at (sequence ++ extra) W i = window_at sequence W i).
  { intros i Hi. apply multiples_In_inv in Hi. destruct Hi as (k & Hk & ->).
    destruct (start_in_range sequence W HS Hk). apply window_of_app; lia. }
  rewrite !calculate_stats_ascending by assumption. fold n n'.
  replace n' with (n + (n' - n))%nat by lia.
  rewrite multiples_split, !map_app.
  eexists _, _, _, _, _, _. split; [reflexivity|].
  f_equal. f_equal; [f_equal|]; f_equal; apply map_ext_in; intros i Hi.
  - unfold gt_total_at. cbv zeta. now rewrite Hsame.
  - unfold g_t_ratio_at. cbv zeta. now rewrite Hsame.
Qed.

Lemma calculate_stats_extension_witness :
  (1 <= 4 /\ 1 <= 2)
  /\ exists ps gts rs ps' gts' rs',
       calculate_stats (list_ascii_of_string "GGTTAA") 4 2
       = inr (ps, gts, rs)
       /\ calculate_stats
            (list_ascii_of_string "GGTTAA" ++ list_ascii_of_string "GG") 4 2
          = inr (ps ++ ps', gts ++ gts', rs ++ rs').
Proof.
  assert (H : 1 <= 4 /\ 1 <= 2) by lia.
  split; [exact H|]. destruct H as (HW & HS).
  exact (calculate_stats_extension (list_ascii_of_string "GGTTAA")
           (list_ascii_of_string "GG") HW HS).
Defined.

(** ** Runs that illustrate the outcomes of [main] *)


Lemma main_output_all_or_nothing_witness :
  snd (main example_fs (mkArgs "chrIX.fa" 4 2 None None)) = Completed
  /\ writes_output (main example_fs (mkArgs "chrIX.fa" 4 2 None None))
  /\ exists sequence stem table,
       fst (main example_fs (mkArgs "chrIX.fa" 4 2 None None))
       = success_events (mkArgs "chrIX.fa" 4 2 None None)
           sequence stem table.
Proof.
  assert (H : snd (main example_fs (mkArgs "chrIX.fa" 4 2 None None))
              = Completed) by reflexivity.
  split; [exact H|].
  destruct (main_output_all_or_nothing example_fs
              (mkArgs "chrIX.fa" 4 2 None None)) as [Hiff Hshape].
  split; [exact (proj2 Hiff H)|exact (Hshape H)].
Defined.

Lemma main_exit_status_zero_witness :
  (exists whole,
     accepted example_fs (mkArgs "chrIX.fa" 4 2 None None) whole)
  /\ 2 <> 0
  /\ exit_status (snd (main example_fs (mkArgs "chrIX.fa" 4 2 None None)))
     = 0.
Proof.
  assert (H : (exists whole,
                 accepted example_fs (mkArgs "chrIX.fa" 4 2 None None) whole)
              /\ 2 <> 0).
  { split; [|discriminate].
    exists (list_ascii_of_string "GGTTAAGGTT").
    unfold accepted. split; [reflexivity|]. cbn. lia. }
  split; [exact (proj1 H)|]. split; [exact (proj2 H)|].
  exact (proj2 (main_exit_status_zero example_fs
                  (mkArgs "chrIX.fa" 4 2 None None)) H).
Defined.

Lemma calculate_stats_raises_witness :
  calculate_stats (list_ascii_of_string "GGTT") 0 1 = inl ZeroDivisionError
  /\ calculate_stats (list_ascii_of_string "GGTT") 4 0 = inl ValueError.
Proof.
  split.
  - apply (proj2 (proj1 (proj2 (calculate_stats_raises
                                  (list_ascii_of_string "GGTT") 0 1)))).
    split; [reflexivity|lia].
  - apply (proj2 (proj1 (calculate_stats_raises
                           (list_ascii_of_string "GGTT") 4 0))).
    reflexivity.
Defined.
